(** * The facility creation form: validation, gallery and submission

    A shallow embedding of the form component of [src/api/src/server.ts]
    (the [OrphanagesMap] React component, its [dataSchema] and its event
    handlers), with the properties its specification states about it.

    Conventions of the embedding.
    - A JavaScript string is a [string], one character per code unit; its
      [length] is [String.length].
    - A map coordinate is a rational [Q]. The coordinates of the form come
      from the map's click events, whose values are finite numbers; every
      finite double is a rational, and the negative zero of the doubles
      compares equal to zero and is falsy exactly as [0] is. Comparison with
      zero is [Qeq_bool], since a rational has several representations.
    - React state is an explicit record [State]; a setter is a record update.
    - Everything outside the component (device cache, blob URL registry,
      network, notification surface, router) is the record [World]; effects
      are logged there in the order they happen. *)

From Stdlib Require Import QArith.
From stdpp Require Import base strings list gmap pretty.

Local Open Scope string_scope.
Local Open Scope list_scope.

(** ** JavaScript values *)

Module JS.

(** [!!x] for a number [x]: zero is falsy, every other number is truthy. *)
Definition truthy (x : Q) : bool := negb (Qeq_bool x 0).

(** [x === y] on numbers. *)
Definition strict_eq (x y : Q) : bool := Qeq_bool x y.

(** [String(b)] for a boolean. *)
Definition String_of_bool (b : bool) : string :=
  if b then "true" else "false".

(** [String(v)] where [v] is a string or [null], as returned by
    [localStorage.getItem]. *)
Definition String_of_nullable (v : option string) : string :=
  match v with
  | Some s => s
  | None => "null"
  end.

End JS.

(** ** Data of the form *)

Module File.
(** A picked file: its display name and its binary content. *)
Record t := mk { name : string; content : list Byte.byte }.
End File.

Module PreviewImage.
Record t := mk { name : string; url : string }.
End PreviewImage.

Module ILocation.
Record t := mk { latitude : Q; longitude : Q }.
End ILocation.

(** ** The part of Yup that [dataSchema] uses

    A schema of a field is a list of tests. A test receives the path of the
    field and its value, and either passes or yields one error that carries
    the path and the message of the test. *)

Module Yup.

Record ValidationError := mkError { path : string; message : string }.

#[global] Instance ValidationError_eq_dec : EqDecision ValidationError.
Proof. solve_decision. Defined.

Definition Test (A : Type) : Type := string -> A -> option ValidationError.

(** [string().required(msg)]: a string is present when its length is not
    zero. *)
Definition required (msg : string) : Test string :=
  fun p v => if Nat.eqb (String.length v) 0 then Some (mkError p msg) else None.

(** [string().max(n, msg)]. *)
Definition string_max (n : nat) (msg : string) : Test string :=
  fun p v => if Nat.leb (String.length v) n then None else Some (mkError p msg).

(** [array().max(n, msg)]. *)
Definition array_max {A : Type} (n : nat) (msg : string) : Test (list A) :=
  fun p v => if Nat.leb (length v) n then None else Some (mkError p msg).

(** The result of the function given to [test(name, fn)]: [true], or the
    error built by [this.createError]. *)
Inductive TestResult :=
| ReturnTrue
| CreateError (e : ValidationError).

(** [test(name, fn)], where [fn] reads [this.path]. *)
Definition test {A : Type} (fn : string -> A -> TestResult) : Test A :=
  fun p v =>
    match fn p v with
    | ReturnTrue => None
    | CreateError e => Some e
    end.

(** Validation of one field with [abortEarly: false]: every test runs and
    every failure is kept. *)
Definition validate_field {A : Type} (tests : list (Test A)) (p : string)
    (v : A) : list ValidationError :=
  omap (fun t => t p v) tests.

End Yup.

Import Yup.

(** ** [dataSchema] *)

(** The object validated by [handleSubmit]. *)
Record Payload := mkPayload {
  payload_name : string;
  payload_description : string;
  payload_location : ILocation.t;
  payload_images : list File.t;
  payload_opening_hours : string
}.

Definition validator_location (this_path : string) (location : ILocation.t)
    : TestResult :=
  if (negb (JS.truthy (ILocation.latitude location))
        || JS.strict_eq (ILocation.latitude location) 0)
     || (negb (JS.truthy (ILocation.longitude location))
        || JS.strict_eq (ILocation.longitude location) 0)
  then CreateError (mkError this_path "Informe a localizaçao no mapa")
  else ReturnTrue.

Definition validator_images (this_path : string) (images : list File.t)
    : TestResult :=
  if Nat.leb (length images) 0
  then CreateError (mkError this_path "Envie pelo menos uma foto")
  else ReturnTrue.

Module dataSchema.

Definition name : list (Test string) :=
  [required "Campo obrigatório"].

Definition description : list (Test string) :=
  [string_max 300 "Descrição muito longa, informe até 300 caracteres";
   required "Campo obrigatório"].

Definition location : list (Test ILocation.t) :=
  [test validator_location].

Definition images : list (Test (list File.t)) :=
  [array_max 5 "Adicione até 5 fotos"; test validator_images].

Definition opening_hours : list (Test string) :=
  [required "Campo obrigatório"].

(** The errors of [dataSchema.validate(payload, { abortEarly: false })],
    that is the [inner] list of the [ValidationError] it throws; the list
    is empty exactly when the promise resolves. *)
Definition errors (payload : Payload) : list ValidationError :=
  validate_field name "name" (payload_name payload)
  ++ validate_field description "description" (payload_description payload)
  ++ validate_field location "location" (payload_location payload)
  ++ validate_field images "images" (payload_images payload)
  ++ validate_field opening_hours "opening_hours"
       (payload_opening_hours payload).

(** [await dataSchema.validate(...)]: the value, or the thrown error. *)
Definition validate (payload : Payload) : Payload + list ValidationError :=
  match errors payload with
  | [] => inl payload
  | e :: es => inr (e :: es)
  end.

End dataSchema.

(** ** Collaborators of the component *)

Module FormData.

(** A part of a multipart body: a text, or a file sent as binary. *)
Inductive value :=
| Text (s : string)
| Binary (f : File.t).

(** The entries in the order of their [append]; a key may repeat. *)
Abbreviation t := (list (string * value)).

Definition empty : t := [].

Definition append (key : string) (v : value) (data : t) : t :=
  data ++ [(key, v)].

Definition getAll (key : string) (data : t) : list value :=
  snd <$> filter (fun entry => entry.1 = key) data.

Definition get (key : string) (data : t) : option value :=
  head (getAll key data).

End FormData.

Module Swal.

Inductive content :=
| text (s : string)
| html (s : string).

(** The options of one [Swal.fire] call. *)
Record options := fire {
  title : string;
  body : content;
  icon : string;
  confirmButtonText : string
}.

End Swal.

(** Modelled from the spec: the network collaborator [services/api], which
    is not part of the sources. A request succeeds with a 2xx response, or
    fails with a response whose JSON body contains a numeric [bcode]; the
    handler reads it as [error.response.data.bcode]. *)
Inductive PostResult :=
| Resolved
| Rejected (bcode : Z).

Definition Api : Type := string -> FormData.t -> PostResult.

(** What lies outside the component. [blobs] counts the object URLs handed
    out so far; [posts], [modals] and [navigations] log the calls of
    [api.post], [Swal.fire] and [navigate], oldest first. *)
Record World := mkWorld {
  localStorage : gmap string string;
  blobs : nat;
  posts : list (string * FormData.t);
  modals : list Swal.options;
  navigations : list string
}.

(** [localStorage.getItem(key)]: the stored string, or [null]. *)
Definition getItem (key : string) (w : World) : option string :=
  localStorage w !! key.

(** The object URL number [i] of the page. *)
Definition blob (i : nat) : string := "blob:" +:+ pretty i.

(** [URL.createObjectURL(image)]: a URL that no earlier call returned. *)
Definition createObjectURL (image : File.t) (w : World) : string * World :=
  (blob (blobs w),
   mkWorld (localStorage w) (S (blobs w)) (posts w) (modals w) (navigations w)).

Definition api_post (api : Api) (route : string) (data : FormData.t)
    (w : World) : PostResult * World :=
  (api route data,
   mkWorld (localStorage w) (blobs w) (posts w ++ [(route, data)]) (modals w)
     (navigations w)).

Definition Swal_fire (o : Swal.options) (w : World) : World :=
  mkWorld (localStorage w) (blobs w) (posts w) (modals w ++ [o]) (navigations w).

Definition navigate (route : string) (w : World) : World :=
  mkWorld (localStorage w) (blobs w) (posts w) (modals w) (navigations w ++ [route]).

(** ** State of the component: one field per [useState] *)

Record State := mkState {
  loadPosition : option ILocation.t;
  selectedPosition : Q * Q;
  name : string;
  description : string;
  opening_hours : string;
  open_on_weekends : bool;
  images : list File.t;
  previewImages : list PreviewImage.t;
  alertName : string;
  alertDescription : string;
  alertPosition : string;
  alertImages : string;
  alertOh : string
}.

(** The state of the first render. *)
Definition initialState : State :=
  mkState None (0, 0)%Q "" "" "" true [] [] "" "" "" "" "".

Definition setSelectedPosition (v : Q * Q) (s : State) : State :=
  mkState (loadPosition s) v (name s) (description s) (opening_hours s)
    (open_on_weekends s) (images s) (previewImages s) (alertName s)
    (alertDescription s) (alertPosition s) (alertImages s) (alertOh s).

Definition setName (v : string) (s : State) : State :=
  mkState (loadPosition s) (selectedPosition s) v (description s)
    (opening_hours s) (open_on_weekends s) (images s) (previewImages s)
    (alertName s) (alertDescription s) (alertPosition s) (alertImages s)
    (alertOh s).

Definition setDescription (v : string) (s : State) : State :=
  mkState (loadPosition s) (selectedPosition s) (name s) v (opening_hours s)
    (open_on_weekends s) (images s) (previewImages s) (alertName s)
    (alertDescription s) (alertPosition s) (alertImages s) (alertOh s).

Definition setOpeningHours (v : string) (s : State) : State :=
  mkState (loadPosition s) (selectedPosition s) (name s) (description s) v
    (open_on_weekends s) (images s) (previewImages s) (alertName s)
    (alertDescription s) (alertPosition s) (alertImages s) (alertOh s).

Definition setOpenOnWeekends (v : bool) (s : State) : State :=
  mkState (loadPosition s) (selectedPosition s) (name s) (description s)
    (opening_hours s) v (images s) (previewImages s) (alertName s)
    (alertDescription s) (alertPosition s) (alertImages s) (alertOh s).

Definition setImages (v : list File.t) (s : State) : State :=
  mkState (loadPosition s) (selectedPosition s) (name s) (description s)
    (opening_hours s) (open_on_weekends s) v (previewImages s) (alertName s)
    (alertDescription s) (alertPosition s) (alertImages s) (alertOh s).

Definition setPreviewImages (v : list PreviewImage.t) (s : State) : State :=
  mkState (loadPosition s) (selectedPosition s) (name s) (description s)
    (opening_hours s) (open_on_weekends s) (images s) v (alertName s)
    (alertDescription s) (alertPosition s) (alertImages s) (alertOh s).

Definition setAlertName (v : string) (s : State) : State :=
  mkState (loadPosition s) (selectedPosition s) (name s) (description s)
    (opening_hours s) (open_on_weekends s) (images s) (previewImages s) v
    (alertDescription s) (alertPosition s) (alertImages s) (alertOh s).

Definition setAlertDescription (v : string) (s : State) : State :=
  mkState (loadPosition s) (selectedPosition s) (name s) (description s)
    (opening_hours s) (open_on_weekends s) (images s) (previewImages s)
    (alertName s) v (alertPosition s) (alertImages s) (alertOh s).

Definition setAlertPosition (v : string) (s : State) : State :=
  mkState (loadPosition s) (selectedPosition s) (name s) (description s)
    (opening_hours s) (open_on_weekends s) (images s) (previewImages s)
    (alertName s) (alertDescription s) v (alertImages s) (alertOh s).

Definition setAlertImages (v : string) (s : State) : State :=
  mkState (loadPosition s) (selectedPosition s) (name s) (description s)
    (opening_hours s) (open_on_weekends s) (images s) (previewImages s)
    (alertName s) (alertDescription s) (alertPosition s) v (alertOh s).

Definition setAlertOh (v : string) (s : State) : State :=
  mkState (loadPosition s) (selectedPosition s) (name s) (description s)
    (opening_hours s) (open_on_weekends s) (images s) (previewImages s)
    (alertName s) (alertDescription s) (alertPosition s) (alertImages s) v.

(** ** Event handlers *)

(** The [click] handler of [Markers]. *)
Definition click (lat lng : Q) (s : State) : State :=
  setSelectedPosition (lat, lng) s.

(** [selectedImages.map(image => ({ name, url: URL.createObjectURL(image) }))]:
    one object URL per image, in the order of the images. *)
Fixpoint selectedImagesPreview (selectedImages : list File.t) (w : World)
    : list PreviewImage.t * World :=
  match selectedImages with
  | [] => ([], w)
  | image :: rest =>
      let (u, w1) := createObjectURL image w in
      let (previews, w2) := selectedImagesPreview rest w1 in
      (PreviewImage.mk (File.name image) u :: previews, w2)
  end.

(** [files] is [event.target.files]: [None] when it is [null]. *)
Definition handleSelectImages (files : option (list File.t)) (s : State)
    (w : World) : State * World :=
  match files with
  | None => (s, w)
  | Some selectedImages =>
      let s1 := setImages selectedImages s in
      let (previews, w1) := selectedImagesPreview selectedImages w in
      (setPreviewImages previews s1, w1)
  end.

Definition handleRemoveImage (image : PreviewImage.t) (s : State) : State :=
  let s1 :=
    setPreviewImages
      (filter (fun img => PreviewImage.url img <> PreviewImage.url image)
         ((fun image => image) <$> previewImages s)) s in
  setImages
    (filter (fun img => File.name img <> PreviewImage.name image)
       ((fun image => image) <$> images s)) s1.

Definition resetAlerts (s : State) : State :=
  setAlertOh "" (setAlertImages "" (setAlertPosition ""
    (setAlertDescription "" (setAlertName "" s)))).

(** The object literal [payload] of [handleSubmit]. *)
Definition payload_of (s : State) : Payload :=
  mkPayload (name s) (description s)
    (ILocation.mk
       (if JS.truthy (selectedPosition s).1 then (selectedPosition s).1 else 0)
       (if JS.truthy (selectedPosition s).2 then (selectedPosition s).2 else 0))
    (images s) (opening_hours s).

(** The body of [error.inner.forEach]: the [switch] on [e.path]. *)
Definition setAlert (e : ValidationError) (s : State) : State :=
  if String.eqb (path e) "name" then setAlertName (message e) s
  else if String.eqb (path e) "description" then setAlertDescription (message e) s
  else if String.eqb (path e) "location" then setAlertPosition (message e) s
  else if String.eqb (path e) "images" then setAlertImages (message e) s
  else if String.eqb (path e) "opening_hours" then setAlertOh (message e) s
  else s.

(** The [FormData] that [handleSubmit] builds. *)
Definition formData_of (s : State) (w : World) : FormData.t :=
  let data := FormData.empty in
  let data := FormData.append "name" (FormData.Text (name s)) data in
  let data := FormData.append "description" (FormData.Text (description s)) data in
  let data := FormData.append "latitude"
    (FormData.Text (JS.String_of_nullable (getItem "hope:latitude" w))) data in
  let data := FormData.append "longitude"
    (FormData.Text (JS.String_of_nullable (getItem "hope:longitude" w))) data in
  let data := FormData.append "opening_hours"
    (FormData.Text (opening_hours s)) data in
  let data := FormData.append "open_on_weekends"
    (FormData.Text (JS.String_of_bool (open_on_weekends s))) data in
  foldl (fun data image => FormData.append "images" (FormData.Binary image) data)
    data (images s).

Definition handleSubmit (api : Api) (s : State) (w : World) : State * World :=
  let s1 := resetAlerts s in
  let payload := payload_of s in
  match dataSchema.validate payload with
  | inr inner => (foldl (fun st e => setAlert e st) s1 inner, w)
  | inl _ =>
      let data := formData_of s w in
      let (result, w1) := api_post api "orphanages" data w in
      match result with
      | Resolved =>
          let w2 :=
            Swal_fire
              (Swal.fire "Uhull!" (Swal.text "Orfanato cadastrado com sucesso.")
                 "success" "Ok") w1 in
          (s1, navigate "/map" w2)
      | Rejected bcode =>
          if Z.eqb bcode 1001 then
            (s1,
             Swal_fire
               (Swal.fire "Oops!"
                  (Swal.html
                     ("Já existe um cadastro com o nome: </br><i>" +:+ name s
                        +:+ "</i>"))
                  "warning" "Voltar") w1)
          else
            (s1,
             Swal_fire
               (Swal.fire "Oops!"
                  (Swal.html
                     "Ocorreu um erro desconhecido.</br>Veja o console do navegador :(")
                  "error" "Voltar") w1)
      end
  end.

(** ** The position of the device *)

Definition setLoadPosition (v : option ILocation.t) (s : State) : State :=
  mkState v (selectedPosition s) (name s) (description s) (opening_hours s)
    (open_on_weekends s) (images s) (previewImages s) (alertName s)
    (alertDescription s) (alertPosition s) (alertImages s) (alertOh s).

(** The callback that the effect of the first render gives to
    [getCurrentPosition]; [coords] is [geo.coords]. *)
Definition onCurrentPosition (coords : ILocation.t) (s : State) : State :=
  setLoadPosition (Some coords) s.

(** ** What the page renders *)

(** [{alert && <small className="alert-error">{alert}</small>}]: the empty
    string is falsy and renders nothing. *)
Definition alert_error (alert : string) : list string :=
  if Nat.eqb (String.length alert) 0 then [] else [alert].

(** The [MapContainer]: its center, and the position of the marker. The
    marker is always there, since [selectedPosition] is an array, which is
    truthy. *)
Record MapView := mkMapView {
  center : Q * Q;
  marker_position : Q * Q
}.

(** What [render] keeps of the returned tree: the map when it is rendered,
    the texts of the [alert-error] elements in document order, and the keys
    of the entries of the gallery. *)
Record Page := mkPage {
  map_view : option MapView;
  alert_errors : list string;
  image_keys : list string
}.

Definition render (s : State) : Page :=
  mkPage
    (match loadPosition s with
     | Some loadPosition =>
         Some (mkMapView
                 (ILocation.latitude loadPosition,
                  ILocation.longitude loadPosition)
                 (selectedPosition s))
     | None => None
     end)
    ((match loadPosition s with
      | Some _ => alert_error (alertPosition s)
      | None => []
      end)
     ++ alert_error (alertName s)
     ++ alert_error (alertDescription s)
     ++ alert_error (alertImages s)
     ++ alert_error (alertOh s))
    (PreviewImage.url <$> previewImages s).

(** ** The events of the page *)

(** An event and what comes with it. [Submit] carries the answer of the
    server to the request of that submit, should it make one. *)
Inductive Event :=
| CurrentPosition (coords : ILocation.t)
| MapClick (lat lng : Q)
| NameChange (v : string)
| DescriptionChange (v : string)
| OpeningHoursChange (v : string)
| WeekendsClick (v : bool)
| FilesChange (files : option (list File.t))
| RemoveClick (image : PreviewImage.t)
| Submit (answer : PostResult).

(** The handler that the component binds to each event. *)
Definition handle (ev : Event) (sw : State * World) : State * World :=
  match ev with
  | CurrentPosition coords => (onCurrentPosition coords sw.1, sw.2)
  | MapClick lat lng => (click lat lng sw.1, sw.2)
  | NameChange v => (setName v sw.1, sw.2)
  | DescriptionChange v => (setDescription v sw.1, sw.2)
  | OpeningHoursChange v => (setOpeningHours v sw.1, sw.2)
  | WeekendsClick v => (setOpenOnWeekends v sw.1, sw.2)
  | FilesChange files => handleSelectImages files sw.1 sw.2
  | RemoveClick image => (handleRemoveImage image sw.1, sw.2)
  | Submit answer => handleSubmit (fun _ _ => answer) sw.1 sw.2
  end.

(** The events that the rendered page can raise: the map takes clicks only
    when it is rendered, that is when a position was loaded, and a preview
    can be removed only when it is shown. *)
Definition offered (ev : Event) (s : State) : Prop :=
  match ev with
  | MapClick _ _ => loadPosition s <> None
  | RemoveClick image => image ∈ previewImages s
  | _ => True
  end.

Definition run (evs : list Event) (sw : State * World) : State * World :=
  foldl (fun sw ev => handle ev sw) sw evs.

(** Every event of the trace is offered by the page at the time it occurs. *)
Fixpoint offered_along (evs : list Event) (sw : State * World) : Prop :=
  match evs with
  | [] => True
  | ev :: evs => offered ev sw.1 /\ offered_along evs (handle ev sw)
  end.

(** ** Statements about requests and galleries *)

(** A request as the server expects it from this form, on a device whose
    cache is [cache]: the six texts in order, then one to five images. *)
Definition wellformed_request (cache : gmap string string)
    (request : string * FormData.t) : Prop :=
  request.1 = "orphanages"
  /\ exists (n d oh wk : string) (imgs : list File.t),
       request.2 =
         [("name", FormData.Text n);
          ("description", FormData.Text d);
          ("latitude",
           FormData.Text (JS.String_of_nullable (cache !! "hope:latitude")));
          ("longitude",
           FormData.Text (JS.String_of_nullable (cache !! "hope:longitude")));
          ("opening_hours", FormData.Text oh);
          ("open_on_weekends", FormData.Text wk)]
         ++ ((fun image => ("images", FormData.Binary image)) <$> imgs)
       /\ n <> "" /\ d <> "" /\ String.length d <= 300 /\ oh <> ""
       /\ (wk = "true" \/ wk = "false")
       /\ 1 <= length imgs <= 5.

(** The previews have pairwise different URLs, and the names of the files
    are, in order, names of previews. *)
Definition gallery_consistent (s : State) : Prop :=
  NoDup (PreviewImage.url <$> previewImages s)
  /\ (File.name <$> images s) `sublist_of`
       (PreviewImage.name <$> previewImages s).

(** The fields of the draft, as opposed to the alerts. *)
Definition draft (s : State) :=
  (loadPosition s, selectedPosition s, name s, description s,
   opening_hours s, open_on_weekends s, images s, previewImages s).

(** ** The condition under which each field fails

    One boolean per field, in the words of the rules: a required text is
    missing, a text is too long, a coordinate is zero, the list is empty or
    too long. They state the properties of [dataSchema.errors]; the handlers
    do not use them. *)

Definition name_fails (p : Payload) : bool :=
  Nat.eqb (String.length (payload_name p)) 0.

Definition description_fails (p : Payload) : bool :=
  Nat.eqb (String.length (payload_description p)) 0
  || negb (Nat.leb (String.length (payload_description p)) 300).

Definition location_fails (p : Payload) : bool :=
  negb (JS.truthy (ILocation.latitude (payload_location p))
        && JS.truthy (ILocation.longitude (payload_location p))).

Definition images_fails (p : Payload) : bool :=
  Nat.eqb (length (payload_images p)) 0
  || negb (Nat.leb (length (payload_images p)) 5).

Definition opening_hours_fails (p : Payload) : bool :=
  Nat.eqb (String.length (payload_opening_hours p)) 0.

(** ** Sample inputs, used to run the handlers *)

Module Sample.

Definition photo1 : File.t := File.mk "front.png" [Byte.x89; Byte.x50].
Definition photo2 : File.t := File.mk "yard.png" [Byte.x89; Byte.x51].

(** Two different files that carry one display name, as picked from two
    folders. *)
Definition twin1 : File.t := File.mk "photo.png" [Byte.x01].
Definition twin2 : File.t := File.mk "photo.png" [Byte.x02].

(** A description of exactly 300 characters. *)
Definition description300 : string :=
  String.string_of_list_ascii (replicate 300 (Ascii.ascii_of_nat 97)).

(** A device whose cache holds no position. *)
Definition freshWorld : World := mkWorld ∅ 0 [] [] [].

(** A device whose cache holds a position. *)
Definition cachedWorld : World :=
  mkWorld (<["hope:latitude" := "-23.5"]> (<["hope:longitude" := "-46.6"]> ∅))
    0 [] [] [].

(** A filled form: every field set, one photo, a clicked position. *)
Definition filled : State :=
  mkState None (10, 10)%Q "Lar" "valid" "9-5" true [photo1]
    [PreviewImage.mk "front.png" "blob:0"] "" "" "" "" "".

(** The same form with the name left empty and stale alerts on screen. *)
Definition unnamed : State :=
  mkState None (10, 10)%Q "" "valid" "9-5" true [photo1]
    [PreviewImage.mk "front.png" "blob:0"] "" "old" "old" "" "old".

(** A session: the position arrives, the user clicks the map, fills the
    form, picks two photos, removes one and submits. *)
Definition session : list Event :=
  [CurrentPosition (ILocation.mk (-23) (-46)); MapClick 10 10;
   NameChange "Lar"; DescriptionChange "valid"; OpeningHoursChange "9-5";
   FilesChange (Some [photo1; photo2]);
   RemoveClick (PreviewImage.mk "yard.png" "blob:1");
   Submit Resolved].

(** A session in which the position never arrives. *)
Definition blind_session : list Event :=
  [NameChange "Lar"; DescriptionChange "valid"; OpeningHoursChange "9-5";
   FilesChange (Some [photo1])].

Definition api_conflict : Api := fun _ _ => Rejected 1001.
Definition api_broken : Api := fun _ _ => Rejected 9999.
Definition api_ok : Api := fun _ _ => Resolved.

End Sample.

(** ** Elementary facts *)

Lemma length_zero_empty (v : string) : String.length v = 0 <-> v = "".
Proof. destruct v; simpl; split; (discriminate || reflexivity). Qed.

Lemma truthy_nonzero (x : Q) : JS.truthy x = true <-> ~ (x == 0)%Q.
Proof.
  unfold JS.truthy. rewrite negb_true_iff.
  split.
  - intros Hf Hz. apply Qeq_bool_iff in Hz. congruence.
  - intros Hn. destruct (Qeq_bool x 0) eqn:E; [|reflexivity].
    exfalso. apply Hn. now apply Qeq_bool_iff.
Qed.

Lemma truthy_false_zero (x : Q) : JS.truthy x = false <-> (x == 0)%Q.
Proof.
  unfold JS.truthy. rewrite negb_false_iff. apply Qeq_bool_iff.
Qed.

(** A closed decidable statement is settled by evaluation. *)
Ltac by_evaluation := apply (bool_decide_unpack _); vm_compute; exact I.

(** ** The five field rules, one at a time

    Each lemma gives the errors of one field as a single case distinction on
    the condition under which the field fails. *)

Section FieldRules.

Lemma validate_required (tag v : string) :
  validate_field [required "Campo obrigatório"] tag v =
  if Nat.eqb (String.length v) 0
  then [mkError tag "Campo obrigatório"] else [].
Proof.
  unfold validate_field, required; simpl.
  now destruct (Nat.eqb (String.length v) 0).
Qed.

Lemma validate_description (v : string) :
  validate_field dataSchema.description "description" v =
  if Nat.eqb (String.length v) 0
  then [mkError "description" "Campo obrigatório"]
  else if Nat.leb (String.length v) 300 then []
  else [mkError "description"
          "Descrição muito longa, informe até 300 caracteres"].
Proof.
  unfold validate_field, dataSchema.description, required, string_max; simpl.
  destruct (Nat.eqb (String.length v) 0) eqn:E0.
  - apply Nat.eqb_eq in E0. rewrite E0. reflexivity.
  - now destruct (Nat.leb (String.length v) 300).
Qed.

Lemma validate_location (l : ILocation.t) :
  validate_field dataSchema.location "location" l =
  if JS.truthy (ILocation.latitude l) && JS.truthy (ILocation.longitude l)
  then [] else [mkError "location" "Informe a localizaçao no mapa"].
Proof.
  unfold validate_field, dataSchema.location, test, validator_location; simpl.
  unfold JS.strict_eq, JS.truthy.
  destruct (Qeq_bool (ILocation.latitude l) 0),
           (Qeq_bool (ILocation.longitude l) 0); reflexivity.
Qed.

Lemma validate_images (imgs : list File.t) :
  validate_field dataSchema.images "images" imgs =
  if Nat.eqb (length imgs) 0
  then [mkError "images" "Envie pelo menos uma foto"]
  else if Nat.leb (length imgs) 5 then []
  else [mkError "images" "Adicione até 5 fotos"].
Proof.
  unfold validate_field, dataSchema.images, test, validator_images, array_max.
  simpl. destruct imgs as [|f imgs]; [reflexivity|]. simpl.
  now destruct (Nat.leb (length imgs) 4).
Qed.

End FieldRules.

(** ** The validation rules *)

(** C9. The description rule fails exactly on the empty string and on the
    strings longer than 300 characters; every failure is one error tagged
    [description]; a description of exactly 300 characters passes. *)
Theorem description_rule (v : string) :
  (validate_field dataSchema.description "description" v <> []
     <-> v = "" \/ 300 < String.length v)
  /\ (forall e, e ∈ validate_field dataSchema.description "description" v ->
        path e = "description")
  /\ (String.length v = 300 ->
        validate_field dataSchema.description "description" v = []).
Proof.
  rewrite validate_description, <- length_zero_empty.
  destruct (Nat.eqb (String.length v) 0) eqn:E0;
    [apply Nat.eqb_eq in E0 | apply Nat.eqb_neq in E0];
    [|destruct (Nat.leb (String.length v) 300) eqn:E1;
      [apply Nat.leb_le in E1 | apply Nat.leb_gt in E1]];
    (split; [split|split]);
    try (intros e He; inversion He; subst; [reflexivity | easy]);
    try (intros; lia || easy).
Qed.

Lemma description_rule_witness :
  validate_field dataSchema.description "description" Sample.description300 = [].
Proof.
  apply (proj2 (proj2 (description_rule Sample.description300))).
  vm_compute. reflexivity.
Defined.

(** C7. The location rule passes exactly when both the latitude and the
    longitude are non-zero; the pairs (0, 5), (5, 0) and (0, 0) all fail,
    each with the one error tagged [location]. *)
Theorem location_rule (lat lng : Q) :
  (validate_field dataSchema.location "location" (ILocation.mk lat lng) = []
     <-> ~ (lat == 0)%Q /\ ~ (lng == 0)%Q)
  /\ validate_field dataSchema.location "location" (ILocation.mk 0 5)
     = [mkError "location" "Informe a localizaçao no mapa"]
  /\ validate_field dataSchema.location "location" (ILocation.mk 5 0)
     = [mkError "location" "Informe a localizaçao no mapa"]
  /\ validate_field dataSchema.location "location" (ILocation.mk 0 0)
     = [mkError "location" "Informe a localizaçao no mapa"].
Proof.
  split; [|repeat split].
  rewrite validate_location; simpl.
  rewrite <- !truthy_nonzero.
  destruct (JS.truthy lat), (JS.truthy lng); simpl;
    split; try discriminate; try tauto; intros [? ?]; discriminate.
Qed.

(** C8. The attachments rule passes exactly for the lists of one to five
    entries: the empty list fails and a list of more than five entries
    fails, each with one error tagged [images]. *)
Theorem images_rule (imgs : list File.t) :
  (validate_field dataSchema.images "images" imgs = []
     <-> 1 <= length imgs <= 5)
  /\ (imgs = [] ->
        validate_field dataSchema.images "images" imgs
        = [mkError "images" "Envie pelo menos uma foto"])
  /\ (5 < length imgs ->
        validate_field dataSchema.images "images" imgs
        = [mkError "images" "Adicione até 5 fotos"])
  /\ (forall e, e ∈ validate_field dataSchema.images "images" imgs ->
        path e = "images").
Proof.
  rewrite validate_images.
  assert (Hnil : imgs = [] <-> length imgs = 0)
    by (destruct imgs; simpl; split; easy).
  rewrite Hnil.
  destruct (Nat.eqb (length imgs) 0) eqn:E0;
    [apply Nat.eqb_eq in E0 | apply Nat.eqb_neq in E0];
    [|destruct (Nat.leb (length imgs) 5) eqn:E1;
      [apply Nat.leb_le in E1 | apply Nat.leb_gt in E1]];
    (split; [split|split; [|split]]);
    try (intros e He; inversion He; subst; [reflexivity | easy]);
    try (intros; lia || easy).
Qed.

Lemma images_rule_witness :
  validate_field dataSchema.images "images" []
    = [mkError "images" "Envie pelo menos uma foto"]
  /\ validate_field dataSchema.images "images"
       (replicate 6 Sample.photo1)
    = [mkError "images" "Adicione até 5 fotos"].
Proof.
  split.
  - apply (proj1 (proj2 (images_rule []))). reflexivity.
  - apply (proj1 (proj2 (proj2 (images_rule (replicate 6 Sample.photo1))))).
    simpl. lia.
Defined.

(** Each condition, as the statement it decides. *)
Section RuleConditions.

Variable p : Payload.

Lemma name_fails_iff : payload_name p = "" <-> name_fails p = true.
Proof. unfold name_fails. now rewrite Nat.eqb_eq, length_zero_empty. Qed.

Lemma opening_hours_fails_iff :
  payload_opening_hours p = "" <-> opening_hours_fails p = true.
Proof.
  unfold opening_hours_fails. now rewrite Nat.eqb_eq, length_zero_empty.
Qed.

Lemma description_fails_iff :
  payload_description p = "" \/ 300 < String.length (payload_description p)
  <-> description_fails p = true.
Proof.
  unfold description_fails.
  rewrite orb_true_iff, negb_true_iff, Nat.eqb_eq, Nat.leb_gt.
  now rewrite length_zero_empty.
Qed.

Lemma location_fails_iff :
  (ILocation.latitude (payload_location p) == 0)%Q
  \/ (ILocation.longitude (payload_location p) == 0)%Q
  <-> location_fails p = true.
Proof.
  unfold location_fails.
  rewrite negb_true_iff, andb_false_iff. now rewrite !truthy_false_zero.
Qed.

Lemma images_fails_iff :
  payload_images p = [] \/ 5 < length (payload_images p)
  <-> images_fails p = true.
Proof.
  unfold images_fails.
  rewrite orb_true_iff, negb_true_iff, Nat.eqb_eq, Nat.leb_gt.
  destruct (payload_images p); simpl; split; intros [?|?]; auto; easy.
Qed.

(** The tags of the errors of the whole payload, field by field. *)
Lemma error_paths :
  path <$> dataSchema.errors p =
  (if name_fails p then ["name"] else [])
  ++ (if description_fails p then ["description"] else [])
  ++ (if location_fails p then ["location"] else [])
  ++ (if images_fails p then ["images"] else [])
  ++ (if opening_hours_fails p then ["opening_hours"] else []).
Proof.
  unfold dataSchema.errors.
  rewrite validate_description, validate_location, validate_images.
  unfold dataSchema.name, dataSchema.opening_hours.
  rewrite !validate_required.
  unfold name_fails, description_fails, location_fails, images_fails,
    opening_hours_fails.
  destruct (Nat.eqb (String.length (payload_name p)) 0),
    (Nat.eqb (String.length (payload_description p)) 0),
    (Nat.leb (String.length (payload_description p)) 300),
    (JS.truthy (ILocation.latitude (payload_location p))),
    (JS.truthy (ILocation.longitude (payload_location p))),
    (Nat.eqb (length (payload_images p)) 0),
    (Nat.leb (length (payload_images p)) 5),
    (Nat.eqb (String.length (payload_opening_hours p)) 0);
    reflexivity.
Qed.

End RuleConditions.

(** C1. [validate] reports exactly the fields that fail their rule: for each
    of the five fields, an error tagged with the field is among the errors
    if and only if the field fails its own rule, whatever the other fields
    hold; no error carries another tag and no field is reported twice. A
    payload whose five fields all pass yields no error. *)
Theorem validate_reports_failing_fields (p : Payload) :
  ("name" ∈ path <$> dataSchema.errors p <-> payload_name p = "")
  /\ ("description" ∈ path <$> dataSchema.errors p
        <-> payload_description p = ""
            \/ 300 < String.length (payload_description p))
  /\ ("location" ∈ path <$> dataSchema.errors p
        <-> (ILocation.latitude (payload_location p) == 0)%Q
            \/ (ILocation.longitude (payload_location p) == 0)%Q)
  /\ ("images" ∈ path <$> dataSchema.errors p
        <-> payload_images p = [] \/ 5 < length (payload_images p))
  /\ ("opening_hours" ∈ path <$> dataSchema.errors p
        <-> payload_opening_hours p = "")
  /\ (forall e, e ∈ dataSchema.errors p ->
        path e ∈ ["name"; "description"; "location"; "images"; "opening_hours"])
  /\ NoDup (path <$> dataSchema.errors p)
  /\ (payload_name p <> "" ->
      payload_description p <> "" ->
      String.length (payload_description p) <= 300 ->
      ~ (ILocation.latitude (payload_location p) == 0)%Q ->
      ~ (ILocation.longitude (payload_location p) == 0)%Q ->
      1 <= length (payload_images p) <= 5 ->
      payload_opening_hours p <> "" ->
      dataSchema.errors p = [] /\ dataSchema.validate p = inl p).
Proof.
  assert (Htag : forall e, e ∈ dataSchema.errors p ->
                   path e ∈ path <$> dataSchema.errors p)
    by (intros e He; now apply list_elem_of_fmap_2).
  assert (Hvalid :
            name_fails p = false -> description_fails p = false ->
            location_fails p = false -> images_fails p = false ->
            opening_hours_fails p = false ->
            dataSchema.errors p = [] /\ dataSchema.validate p = inl p).
  { intros Hn Hd Hl Hi Ho.
    assert (Hnil : dataSchema.errors p = []).
    { apply (fmap_nil_inv path). rewrite error_paths.
      now rewrite Hn, Hd, Hl, Hi, Ho. }
    unfold dataSchema.validate. now rewrite Hnil. }
  refine (conj _ (conj _ (conj _ (conj _ (conj _ (conj _ (conj _ _))))))).
  8: { intros Hn Hd Hlen Hlat Hlng Himgs Ho. apply Hvalid.
    - destruct (name_fails p) eqn:E; [|reflexivity].
      apply name_fails_iff in E. contradiction.
    - destruct (description_fails p) eqn:E; [|reflexivity].
      apply description_fails_iff in E as [E|E]; [contradiction|lia].
    - destruct (location_fails p) eqn:E; [|reflexivity].
      apply location_fails_iff in E as [E|E]; contradiction.
    - destruct (images_fails p) eqn:E; [|reflexivity].
      apply images_fails_iff in E as [E|E]; [|lia].
      rewrite E in Himgs. simpl in Himgs. lia.
    - destruct (opening_hours_fails p) eqn:E; [|reflexivity].
      apply opening_hours_fails_iff in E. contradiction. }
  all: clear Hvalid.
  all: rewrite ?(name_fails_iff p), ?(description_fails_iff p),
         ?(location_fails_iff p), ?(images_fails_iff p),
         ?(opening_hours_fails_iff p).
  all: revert Htag; rewrite (error_paths p).
  all: destruct (name_fails p), (description_fails p), (location_fails p),
         (images_fails p), (opening_hours_fails p); simpl; intros Htag.
  all: first
         [ by_evaluation
         | intros e He; apply Htag in He; revert He; generalize (path e);
           apply (proj1 (Forall_forall
                    (fun t => t ∈ ["name"; "description"; "location";
                                   "images"; "opening_hours"]) _));
           by_evaluation ].
Qed.

Lemma validate_reports_failing_fields_witness :
  dataSchema.errors (payload_of Sample.filled) = []
  /\ dataSchema.validate (payload_of Sample.filled)
     = inl (payload_of Sample.filled).
Proof.
  destruct (validate_reports_failing_fields (payload_of Sample.filled))
    as (_ & _ & _ & _ & _ & _ & _ & Hvalid).
  apply Hvalid; simpl; first [discriminate | lia | unfold Qeq; simpl; lia].
Defined.

(** The scenario of the specification: only the name is missing. *)
Example only_name_missing :
  dataSchema.errors (payload_of Sample.unnamed)
  = [mkError "name" "Campo obrigatório"].
Proof. reflexivity. Qed.

(** No field is reported twice. *)
Lemma error_paths_NoDup (p : Payload) : NoDup (path <$> dataSchema.errors p).
Proof.
  rewrite error_paths.
  destruct (name_fails p), (description_fails p), (location_fails p),
    (images_fails p), (opening_hours_fails p); by_evaluation.
Qed.

(** ** Writing the errors into the slots *)

Section Slots.

(** A filter that no member passes keeps nothing. *)
Lemma filter_none {A : Type} (P : A -> Prop) `{forall x, Decision (P x)}
    (l : list A) :
  (forall y, y ∈ l -> ~ P y) -> filter P l = [].
Proof.
  induction l as [|a l IH]; intros Hl; [reflexivity|].
  rewrite filter_cons_False by (apply Hl; left).
  apply IH. intros y Hy. apply Hl. now right.
Qed.

(** In a list without two entries of one key, the entries of the key of a
    member are that member alone. *)
Lemma filter_key_unique {A K : Type} `{EqDecision K} (f : A -> K)
    (l : list A) (x : A) :
  NoDup (f <$> l) -> x ∈ l -> filter (fun y => f y = f x) l = [x].
Proof.
  induction l as [|a l IH]; intros Hnd Hx; [inversion Hx|].
  rewrite fmap_cons in Hnd. apply NoDup_cons in Hnd as [Ha Hnd].
  apply elem_of_cons in Hx as [->|Hx].
  - rewrite filter_cons_True by reflexivity. f_equal.
    apply filter_none. intros y Hy Heq.
    apply Ha. rewrite <- Heq. now apply list_elem_of_fmap_2.
  - rewrite filter_cons_False; [now apply IH|].
    intros Heq. apply Ha. rewrite Heq. now apply list_elem_of_fmap_2.
Qed.

Lemma filter_key_absent {A K : Type} `{EqDecision K} (f : A -> K)
    (l : list A) (k : K) :
  k ∉ f <$> l -> filter (fun y => f y = k) l = [].
Proof.
  intros Hk. apply filter_none. intros y Hy Heq.
  apply Hk. rewrite <- Heq. now apply list_elem_of_fmap_2.
Qed.

(** A slot is read by [get] and written by the errors tagged [tag] only. *)
Variable get : State -> string.
Variable tag : string.
Hypothesis get_written :
  forall e s, path e = tag -> get (setAlert e s) = message e.
Hypothesis get_kept :
  forall e s, path e <> tag -> get (setAlert e s) = get s.

(** After [forEach], the slot holds the message of the last error that
    carries its tag, or what it held before when there is none. *)
Lemma forEach_setAlert (inner : list ValidationError) (s : State) :
  get (foldl (fun st e => setAlert e st) s inner)
  = default (get s)
      (message <$> last (filter (fun e => path e = tag) inner)).
Proof.
  revert s. induction inner as [|e inner IH] using rev_ind; intros s.
  - reflexivity.
  - rewrite foldl_snoc, filter_app.
    destruct (decide (path e = tag)) as [He|He].
    + rewrite get_written by exact He.
      rewrite (filter_cons_True _ e []) by exact He.
      rewrite filter_nil, last_snoc. reflexivity.
    + rewrite get_kept by exact He.
      rewrite (filter_cons_False _ e []) by exact He.
      rewrite filter_nil, app_nil_r. apply IH.
Qed.

Lemma forEach_setAlert_written (inner : list ValidationError) (s : State)
    (e : ValidationError) :
  NoDup (path <$> inner) -> e ∈ inner -> path e = tag ->
  get (foldl (fun st e => setAlert e st) s inner) = message e.
Proof.
  intros Hnd He Htag. rewrite forEach_setAlert, <- Htag.
  now rewrite (filter_key_unique path inner e Hnd He).
Qed.

Lemma forEach_setAlert_kept (inner : list ValidationError) (s : State) :
  tag ∉ path <$> inner ->
  get (foldl (fun st e => setAlert e st) s inner) = get s.
Proof.
  intros Htag. rewrite forEach_setAlert.
  now rewrite (filter_key_absent path inner tag Htag).
Qed.

End Slots.

(** The five slots: which errors write them. *)
Section SwitchCases.

Variables (e : ValidationError) (s : State).

Ltac other_case H :=
  unfold setAlert;
  repeat match goal with
         | |- context [String.eqb (path e) ?t] =>
             destruct (String.eqb_spec (path e) t)
         end;
  try reflexivity; contradiction.

Lemma alertName_written :
  path e = "name" -> alertName (setAlert e s) = message e.
Proof. intros H. unfold setAlert. now rewrite H. Qed.

Lemma alertName_kept :
  path e <> "name" -> alertName (setAlert e s) = alertName s.
Proof. intros H. other_case H. Qed.

Lemma alertDescription_written :
  path e = "description" -> alertDescription (setAlert e s) = message e.
Proof. intros H. unfold setAlert. now rewrite H. Qed.

Lemma alertDescription_kept :
  path e <> "description" ->
  alertDescription (setAlert e s) = alertDescription s.
Proof. intros H. other_case H. Qed.

Lemma alertPosition_written :
  path e = "location" -> alertPosition (setAlert e s) = message e.
Proof. intros H. unfold setAlert. now rewrite H. Qed.

Lemma alertPosition_kept :
  path e <> "location" -> alertPosition (setAlert e s) = alertPosition s.
Proof. intros H. other_case H. Qed.

Lemma alertImages_written :
  path e = "images" -> alertImages (setAlert e s) = message e.
Proof. intros H. unfold setAlert. now rewrite H. Qed.

Lemma alertImages_kept :
  path e <> "images" -> alertImages (setAlert e s) = alertImages s.
Proof. intros H. other_case H. Qed.

Lemma alertOh_written :
  path e = "opening_hours" -> alertOh (setAlert e s) = message e.
Proof. intros H. unfold setAlert. now rewrite H. Qed.

Lemma alertOh_kept :
  path e <> "opening_hours" -> alertOh (setAlert e s) = alertOh s.
Proof. intros H. other_case H. Qed.

End SwitchCases.

(** ** [handleSubmit], step by step *)

(** Whatever the outcome, the state after a submit is the state with its
    alerts reset and then every validation error written by the [switch]. *)
Lemma handleSubmit_state (api : Api) (s : State) (w : World) :
  (handleSubmit api s w).1
  = foldl (fun st e => setAlert e st) (resetAlerts s)
      (dataSchema.errors (payload_of s)).
Proof.
  unfold handleSubmit, dataSchema.validate, api_post.
  destruct (dataSchema.errors (payload_of s)) as [|e inner]; [|reflexivity].
  destruct (api "orphanages" (formData_of s w)) as [|bcode]; [reflexivity|].
  now destruct (Z.eqb bcode 1001).
Qed.

(** A draft with a validation error leaves the world as it is. *)
Lemma handleSubmit_invalid (api : Api) (s : State) (w : World) :
  dataSchema.errors (payload_of s) <> [] -> (handleSubmit api s w).2 = w.
Proof.
  unfold handleSubmit, dataSchema.validate.
  now destruct (dataSchema.errors (payload_of s)).
Qed.

(** A draft without validation error is posted once, and the outcome of the
    request selects what follows. *)
Lemma handleSubmit_valid (api : Api) (s : State) (w : World) :
  dataSchema.errors (payload_of s) = [] ->
  handleSubmit api s w =
  let w1 := mkWorld (localStorage w) (blobs w)
              (posts w ++ [("orphanages", formData_of s w)]) (modals w)
              (navigations w) in
  match api "orphanages" (formData_of s w) with
  | Resolved =>
      (resetAlerts s,
       navigate "/map"
         (Swal_fire
            (Swal.fire "Uhull!" (Swal.text "Orfanato cadastrado com sucesso.")
               "success" "Ok") w1))
  | Rejected bcode =>
      (resetAlerts s,
       Swal_fire
         (if Z.eqb bcode 1001
          then Swal.fire "Oops!"
                 (Swal.html ("Já existe um cadastro com o nome: </br><i>"
                             +:+ name s +:+ "</i>")) "warning" "Voltar"
          else Swal.fire "Oops!"
                 (Swal.html
                    "Ocorreu um erro desconhecido.</br>Veja o console do navegador :(")
                 "error" "Voltar") w1)
  end.
Proof.
  intros Hvalid. unfold handleSubmit, dataSchema.validate, api_post.
  rewrite Hvalid. simpl.
  destruct (api "orphanages" (formData_of s w)) as [|bcode]; [reflexivity|].
  now destruct (Z.eqb bcode 1001).
Qed.

(** C2. A submit clears the five slots and then writes the validation
    errors: every error is in the slot of its tag, and a slot whose tag no
    error carries is empty, whatever it held before. When there is any
    error the handler stops there: the world is untouched, so no request is
    made, no notice shown and no navigation done. *)
Theorem submit_clears_then_writes_slots (api : Api) (s : State) (w : World) :
  let inner := dataSchema.errors (payload_of s) in
  let s' := (handleSubmit api s w).1 in
  (forall e, e ∈ inner ->
     (path e = "name" -> alertName s' = message e)
     /\ (path e = "description" -> alertDescription s' = message e)
     /\ (path e = "location" -> alertPosition s' = message e)
     /\ (path e = "images" -> alertImages s' = message e)
     /\ (path e = "opening_hours" -> alertOh s' = message e))
  /\ ("name" ∉ path <$> inner -> alertName s' = "")
  /\ ("description" ∉ path <$> inner -> alertDescription s' = "")
  /\ ("location" ∉ path <$> inner -> alertPosition s' = "")
  /\ ("images" ∉ path <$> inner -> alertImages s' = "")
  /\ ("opening_hours" ∉ path <$> inner -> alertOh s' = "")
  /\ (inner <> [] ->
      (handleSubmit api s w).2 = w
      /\ posts (handleSubmit api s w).2 = posts w).
Proof.
  intros inner s'. subst s'. rewrite handleSubmit_state. fold inner.
  pose proof (error_paths_NoDup (payload_of s)) as Hnd. fold inner in Hnd.
  split; [intros e He; split; [|split; [|split; [|split]]]; intros Htag
         |split; [|split; [|split; [|split; [|split]]]]; intros Htag].
  - now apply (forEach_setAlert_written alertName "name"
                 alertName_written alertName_kept).
  - now apply (forEach_setAlert_written alertDescription "description"
                 alertDescription_written alertDescription_kept).
  - now apply (forEach_setAlert_written alertPosition "location"
                 alertPosition_written alertPosition_kept).
  - now apply (forEach_setAlert_written alertImages "images"
                 alertImages_written alertImages_kept).
  - now apply (forEach_setAlert_written alertOh "opening_hours"
                 alertOh_written alertOh_kept).
  - now rewrite (forEach_setAlert_kept alertName "name"
                   alertName_written alertName_kept).
  - now rewrite (forEach_setAlert_kept alertDescription "description"
                   alertDescription_written alertDescription_kept).
  - now rewrite (forEach_setAlert_kept alertPosition "location"
                   alertPosition_written alertPosition_kept).
  - now rewrite (forEach_setAlert_kept alertImages "images"
                   alertImages_written alertImages_kept).
  - now rewrite (forEach_setAlert_kept alertOh "opening_hours"
                   alertOh_written alertOh_kept).
  - split; [now apply handleSubmit_invalid|now rewrite handleSubmit_invalid].
Qed.

Lemma submit_clears_then_writes_slots_witness :
  (handleSubmit Sample.api_ok Sample.unnamed Sample.freshWorld).2
    = Sample.freshWorld
  /\ posts (handleSubmit Sample.api_ok Sample.unnamed Sample.freshWorld).2
     = posts Sample.freshWorld.
Proof.
  destruct (submit_clears_then_writes_slots Sample.api_ok Sample.unnamed
              Sample.freshWorld) as (_ & _ & _ & _ & _ & _ & Hstop).
  apply Hstop. discriminate.
Defined.

(** The stale alerts of the sample are gone and the one error is shown. *)
Example unnamed_alerts :
  let s' := (handleSubmit Sample.api_ok Sample.unnamed Sample.freshWorld).1 in
  (alertName s', alertDescription s', alertPosition s', alertImages s',
   alertOh s') = ("Campo obrigatório", "", "", "", "").
Proof. reflexivity. Qed.

(** ** The transfer payload *)

Lemma forEach_append_images (imgs : list File.t) (data : FormData.t) :
  foldl (fun data image => FormData.append "images" (FormData.Binary image) data)
    data imgs
  = data ++ ((fun image => ("images", FormData.Binary image)) <$> imgs).
Proof.
  revert data. induction imgs as [|image imgs IH]; intros data; simpl.
  - now rewrite app_nil_r.
  - rewrite IH. unfold FormData.append. now rewrite <- app_assoc.
Qed.

(** The entries of the payload, in the order of their [append]. *)
Lemma formData_of_entries (s : State) (w : World) :
  formData_of s w =
  [("name", FormData.Text (name s));
   ("description", FormData.Text (description s));
   ("latitude",
    FormData.Text (JS.String_of_nullable (localStorage w !! "hope:latitude")));
   ("longitude",
    FormData.Text (JS.String_of_nullable (localStorage w !! "hope:longitude")));
   ("opening_hours", FormData.Text (opening_hours s));
   ("open_on_weekends",
    FormData.Text (JS.String_of_bool (open_on_weekends s)))]
  ++ ((fun image => ("images", FormData.Binary image)) <$> images s).
Proof. unfold formData_of. now rewrite forEach_append_images. Qed.

Lemma getAll_images_parts (imgs : list File.t) :
  FormData.getAll "images"
    ((fun image => ("images", FormData.Binary image)) <$> imgs)
  = FormData.Binary <$> imgs.
Proof.
  unfold FormData.getAll. induction imgs as [|image imgs IH]; [reflexivity|].
  change ((fun image => ("images", FormData.Binary image)) <$> image :: imgs)
    with (("images", FormData.Binary image)
          :: ((fun image => ("images", FormData.Binary image)) <$> imgs)).
  rewrite filter_cons_True by reflexivity.
  rewrite fmap_cons, IH. reflexivity.
Qed.

Lemma getAll_other_parts (key : string) (imgs : list File.t) :
  key <> "images" ->
  FormData.getAll key
    ((fun image => ("images", FormData.Binary image)) <$> imgs) = [].
Proof.
  intros Hkey. unfold FormData.getAll.
  rewrite (filter_none _ _); [reflexivity|].
  intros entry Hentry Heq. apply list_elem_of_fmap in Hentry as (image & -> & _).
  simpl in Heq. congruence.
Qed.

Lemma getAll_app (key : string) (d1 d2 : FormData.t) :
  FormData.getAll key (d1 ++ d2)
  = FormData.getAll key d1 ++ FormData.getAll key d2.
Proof. unfold FormData.getAll. now rewrite filter_app, fmap_app. Qed.

(** C3. For a draft that passes validation, the one request carries the
    payload built by the handler: the three texts as they are, the weekend
    flag as the text of the boolean, the latitude and longitude as read from
    the device cache, then every attachment in gallery order as a binary
    part under the key [images]. The payload is the same whatever position
    is selected on the map. *)
Theorem transfer_payload (api : Api) (s : State) (w : World) :
  dataSchema.errors (payload_of s) = [] ->
  let data := formData_of s w in
  posts (handleSubmit api s w).2 = posts w ++ [("orphanages", data)]
  /\ data =
     [("name", FormData.Text (name s));
      ("description", FormData.Text (description s));
      ("latitude",
       FormData.Text (JS.String_of_nullable (localStorage w !! "hope:latitude")));
      ("longitude",
       FormData.Text (JS.String_of_nullable (localStorage w !! "hope:longitude")));
      ("opening_hours", FormData.Text (opening_hours s));
      ("open_on_weekends",
       FormData.Text (if open_on_weekends s then "true" else "false"))]
     ++ ((fun image => ("images", FormData.Binary image)) <$> images s)
  /\ FormData.getAll "images" data = FormData.Binary <$> images s
  /\ (forall position : Q * Q,
        formData_of (setSelectedPosition position s) w = data).
Proof.
  intros Hvalid data. subst data. split; [|split; [|split]].
  - rewrite (handleSubmit_valid api s w Hvalid). simpl.
    destruct (api "orphanages" (formData_of s w)); reflexivity.
  - apply formData_of_entries.
  - rewrite formData_of_entries, getAll_app, getAll_images_parts.
    reflexivity.
  - intros position. reflexivity.
Qed.

Lemma transfer_payload_witness :
  posts (handleSubmit Sample.api_ok Sample.filled Sample.cachedWorld).2
  = [("orphanages",
      [("name", FormData.Text "Lar");
       ("description", FormData.Text "valid");
       ("latitude", FormData.Text "-23.5");
       ("longitude", FormData.Text "-46.6");
       ("opening_hours", FormData.Text "9-5");
       ("open_on_weekends", FormData.Text "true");
       ("images", FormData.Binary Sample.photo1)])].
Proof.
  destruct (transfer_payload Sample.api_ok Sample.filled Sample.cachedWorld)
    as (Hposts & Hdata & _); [reflexivity|].
  rewrite Hposts, Hdata. reflexivity.
Defined.

(** C10. For a draft that passes validation the request is made whatever
    the device cache holds; when the cache has no latitude the [latitude]
    part is the text [null], and likewise for the longitude. *)
Theorem submit_without_cached_position (api : Api) (s : State) (w : World) :
  dataSchema.errors (payload_of s) = [] ->
  posts (handleSubmit api s w).2
    = posts w ++ [("orphanages", formData_of s w)]
  /\ (getItem "hope:latitude" w = None ->
      FormData.getAll "latitude" (formData_of s w) = [FormData.Text "null"])
  /\ (getItem "hope:longitude" w = None ->
      FormData.getAll "longitude" (formData_of s w) = [FormData.Text "null"])
  /\ String.length "null" = 4.
Proof.
  intros Hvalid. split; [|split; [|split]].
  - rewrite (handleSubmit_valid api s w Hvalid). simpl.
    destruct (api "orphanages" (formData_of s w)); reflexivity.
  - unfold getItem. intros Hnone.
    rewrite formData_of_entries, getAll_app, getAll_other_parts by discriminate.
    rewrite Hnone. reflexivity.
  - unfold getItem. intros Hnone.
    rewrite formData_of_entries, getAll_app, getAll_other_parts by discriminate.
    rewrite Hnone. reflexivity.
  - reflexivity.
Qed.

Lemma submit_without_cached_position_witness :
  posts (handleSubmit Sample.api_ok Sample.filled Sample.freshWorld).2
    = [("orphanages", formData_of Sample.filled Sample.freshWorld)]
  /\ FormData.getAll "latitude" (formData_of Sample.filled Sample.freshWorld)
     = [FormData.Text "null"]
  /\ FormData.getAll "longitude" (formData_of Sample.filled Sample.freshWorld)
     = [FormData.Text "null"].
Proof.
  destruct (submit_without_cached_position Sample.api_ok Sample.filled
              Sample.freshWorld) as (Hposts & Hlat & Hlng & _);
    [reflexivity|].
  split; [exact Hposts|split; [apply Hlat|apply Hlng]]; reflexivity.
Defined.

(** ** Outcome of a rejected request *)

(** C4. When the request of a valid draft is rejected, the business code
    alone selects the notice: code 1001 shows the duplicate-name notice with
    the submitted name in it, every other code shows the generic notice.
    In both cases one notice is shown, the five slots are empty, and there
    is no navigation and no second request. *)
Theorem rejected_submission_notice (api : Api) (s : State) (w : World)
    (bcode : Z) :
  dataSchema.errors (payload_of s) = [] ->
  api "orphanages" (formData_of s w) = Rejected bcode ->
  let s' := (handleSubmit api s w).1 in
  let w' := (handleSubmit api s w).2 in
  (bcode = 1001%Z ->
   modals w' = modals w ++
     [Swal.fire "Oops!"
        (Swal.html ("Já existe um cadastro com o nome: </br><i>" +:+ name s
                    +:+ "</i>")) "warning" "Voltar"])
  /\ (bcode <> 1001%Z ->
      modals w' = modals w ++
        [Swal.fire "Oops!"
           (Swal.html
              "Ocorreu um erro desconhecido.</br>Veja o console do navegador :(")
           "error" "Voltar"])
  /\ (alertName s', alertDescription s', alertPosition s', alertImages s',
      alertOh s') = ("", "", "", "", "")
  /\ navigations w' = navigations w
  /\ posts w' = posts w ++ [("orphanages", formData_of s w)].
Proof.
  intros Hvalid Hrejected s' w'. subst s' w'.
  rewrite (handleSubmit_valid api s w Hvalid). simpl. rewrite Hrejected.
  simpl. split; [|split; [|repeat split]].
  - intros ->. reflexivity.
  - intros Hother. apply Z.eqb_neq in Hother. now rewrite Hother.
Qed.

Lemma rejected_submission_notice_witness :
  modals (handleSubmit Sample.api_conflict Sample.filled Sample.freshWorld).2
  = [Swal.fire "Oops!"
       (Swal.html "Já existe um cadastro com o nome: </br><i>Lar</i>")
       "warning" "Voltar"].
Proof.
  destruct (rejected_submission_notice Sample.api_conflict Sample.filled
              Sample.freshWorld 1001) as (Hconflict & _);
    [reflexivity|reflexivity|].
  now apply Hconflict.
Defined.

(** The two scenarios of the specification: codes 1001 and 9999. *)
Example rejected_1001 :
  let r := handleSubmit Sample.api_conflict Sample.filled Sample.freshWorld in
  Swal.icon <$> modals r.2 = ["warning"]
  /\ (alertName r.1, alertDescription r.1, alertPosition r.1, alertImages r.1,
      alertOh r.1) = ("", "", "", "", "").
Proof. split; reflexivity. Qed.

Example rejected_9999 :
  let r := handleSubmit Sample.api_broken Sample.filled Sample.freshWorld in
  Swal.icon <$> modals r.2 = ["error"]
  /\ (alertName r.1, alertDescription r.1, alertPosition r.1, alertImages r.1,
      alertOh r.1) = ("", "", "", "", "").
Proof. split; reflexivity. Qed.

(** ** The gallery *)

Section ObjectURLs.

Lemma blob_inj (i j : nat) : blob i = blob j -> i = j.
Proof.
  unfold blob. intros Heq.
  apply (inj (String.app "blob:")) in Heq. now apply (inj pretty) in Heq.
Qed.

Lemma selectedImagesPreview_cons (image : File.t) (l : list File.t)
    (w : World) :
  selectedImagesPreview (image :: l) w
  = (PreviewImage.mk (File.name image) (blob (blobs w))
       :: (selectedImagesPreview l (createObjectURL image w).2).1,
     (selectedImagesPreview l (createObjectURL image w).2).2).
Proof.
  simpl. now destruct (selectedImagesPreview l _).
Qed.

Lemma selectedImagesPreview_names (l : list File.t) (w : World) :
  PreviewImage.name <$> (selectedImagesPreview l w).1 = File.name <$> l.
Proof.
  revert w. induction l as [|image l IH]; intros w; [reflexivity|].
  rewrite selectedImagesPreview_cons. cbn [fst].
  now rewrite !fmap_cons, IH.
Qed.

Lemma selectedImagesPreview_urls (l : list File.t) (w : World) :
  PreviewImage.url <$> (selectedImagesPreview l w).1
  = blob <$> seq (blobs w) (length l).
Proof.
  revert w. induction l as [|image l IH]; intros w; [reflexivity|].
  rewrite selectedImagesPreview_cons. cbn [fst].
  now rewrite !fmap_cons, IH.
Qed.

Lemma selectedImagesPreview_blobs (l : list File.t) (w : World) :
  blobs (selectedImagesPreview l w).2 = blobs w + length l.
Proof.
  revert w. induction l as [|image l IH]; intros w; [simpl; lia|].
  rewrite selectedImagesPreview_cons. cbn [snd].
  rewrite IH. simpl. lia.
Qed.

(** The object URLs of one pick are pairwise different. *)
Lemma selectedImagesPreview_urls_NoDup (l : list File.t) (w : World) :
  NoDup (PreviewImage.url <$> (selectedImagesPreview l w).1).
Proof.
  rewrite selectedImagesPreview_urls.
  apply NoDup_fmap_2_strong; [|apply NoDup_seq].
  intros i j _ _. apply blob_inj.
Qed.

(** A pick hands out URLs that no earlier pick was given. *)
Lemma selectedImagesPreview_urls_fresh (l : list File.t) (w : World)
    (p : PreviewImage.t) :
  p ∈ (selectedImagesPreview l w).1 ->
  exists i, PreviewImage.url p = blob i /\ blobs w <= i < blobs w + length l.
Proof.
  intros Hp. apply (list_elem_of_fmap_2 PreviewImage.url) in Hp.
  rewrite selectedImagesPreview_urls in Hp.
  apply list_elem_of_fmap in Hp as (i & Hurl & Hi).
  apply elem_of_seq in Hi. now exists i.
Qed.

Lemma handleSelectImages_pick (files : list File.t) (s : State) (w : World) :
  handleSelectImages (Some files) s w
  = (setPreviewImages (selectedImagesPreview files w).1 (setImages files s),
     (selectedImagesPreview files w).2).
Proof.
  unfold handleSelectImages. now destruct (selectedImagesPreview files w).
Qed.

(** C6. After a pick of [A] and then a pick of [B], the gallery is [B]: the
    files are those of [B] in pick order, the previews are one per file of
    [B] in the same order, each under an object URL of its own, and no
    preview of the first pick remains. *)
Theorem second_pick_replaces_first (A B : list File.t) (s : State)
    (w : World) :
  let r1 := handleSelectImages (Some A) s w in
  let r2 := handleSelectImages (Some B) r1.1 r1.2 in
  images r2.1 = B
  /\ PreviewImage.name <$> previewImages r2.1 = File.name <$> B
  /\ length (previewImages r2.1) = length B
  /\ NoDup (PreviewImage.url <$> previewImages r2.1)
  /\ (forall p, p ∈ previewImages r1.1 -> p ∉ previewImages r2.1)
  /\ (images r2.1, PreviewImage.name <$> previewImages r2.1)
     = (images (handleSelectImages (Some B) s w).1,
        PreviewImage.name <$> previewImages (handleSelectImages (Some B) s w).1).
Proof.
  intros r1 r2. subst r1 r2. rewrite !handleSelectImages_pick. simpl.
  split; [reflexivity|].
  split; [apply selectedImagesPreview_names|].
  split.
  { rewrite <- (length_fmap PreviewImage.name), selectedImagesPreview_names.
    apply length_fmap. }
  split; [apply selectedImagesPreview_urls_NoDup|].
  split; [|now rewrite !selectedImagesPreview_names].
  intros p HA HB.
  apply selectedImagesPreview_urls_fresh in HA as (i & Hi & HiA).
  apply selectedImagesPreview_urls_fresh in HB as (j & Hj & HjB).
  rewrite selectedImagesPreview_blobs in HjB.
  rewrite Hi in Hj. apply blob_inj in Hj. lia.
Qed.

Lemma second_pick_replaces_first_witness :
  PreviewImage.mk "front.png" "blob:0"
  ∉ previewImages
      (handleSelectImages (Some [Sample.twin1])
         (handleSelectImages (Some [Sample.photo1; Sample.photo2])
            initialState Sample.freshWorld).1
         (handleSelectImages (Some [Sample.photo1; Sample.photo2])
            initialState Sample.freshWorld).2).1.
Proof.
  destruct (second_pick_replaces_first [Sample.photo1; Sample.photo2]
              [Sample.twin1] initialState Sample.freshWorld)
    as (_ & _ & _ & _ & Hgone & _).
  apply Hgone. vm_compute. left.
Defined.

End ObjectURLs.

(** A pick after a pick, run: the gallery holds the second pick only. *)
Example pick_twice :
  let r1 := handleSelectImages (Some [Sample.photo1; Sample.photo2])
              initialState Sample.freshWorld in
  let r2 := handleSelectImages (Some [Sample.twin1]) r1.1 r1.2 in
  images r2.1 = [Sample.twin1]
  /\ previewImages r2.1 = [PreviewImage.mk "photo.png" "blob:2"].
Proof. split; reflexivity. Qed.

(** ** Removing from the gallery *)

Section Removal.

Context {A K : Type} `{EqDecision K} (f : A -> K).

(** Dropping a key that no entry carries drops nothing. *)
Lemma filter_other_keys_absent (l : list A) (k : K) :
  k ∉ f <$> l -> filter (fun y => f y <> k) l = l.
Proof.
  induction l as [|a l IH]; intros Hk; [reflexivity|].
  rewrite fmap_cons in Hk. apply not_elem_of_cons in Hk as [Hne Hk].
  rewrite filter_cons_True by congruence. now rewrite IH.
Qed.

(** Dropping a key that exactly one entry carries drops one entry. *)
Lemma filter_other_keys_present (l : list A) (k : K) :
  NoDup (f <$> l) -> k ∈ f <$> l ->
  length (filter (fun y => f y <> k) l) + 1 = length l.
Proof.
  induction l as [|a l IH]; intros Hnd Hk; [inversion Hk|].
  rewrite fmap_cons in Hnd, Hk. apply NoDup_cons in Hnd as [Ha Hnd].
  destruct (decide (f a = k)) as [Heq|Hne].
  - rewrite filter_cons_False by tauto.
    rewrite filter_other_keys_absent by congruence. simpl. lia.
  - rewrite filter_cons_True by exact Hne.
    apply elem_of_cons in Hk as [Hk|Hk]; [congruence|].
    simpl. rewrite <- (IH Hnd Hk). lia.
Qed.

End Removal.

Lemma handleRemoveImage_lists (image : PreviewImage.t) (s : State) :
  previewImages (handleRemoveImage image s)
  = filter (fun img => PreviewImage.url img <> PreviewImage.url image)
      (previewImages s)
  /\ images (handleRemoveImage image s)
     = filter (fun img => File.name img <> PreviewImage.name image) (images s).
Proof.
  unfold handleRemoveImage. simpl.
  change (fun image0 : PreviewImage.t => image0) with (@id PreviewImage.t).
  change (fun image0 : File.t => image0) with (@id File.t).
  now rewrite !list_fmap_id.
Qed.

(** In a gallery whose previews mirror its files and whose files have
    pairwise different names, removing a preview that is shown drops one
    preview and one file. *)
Lemma handleRemoveImage_distinct_names (image : PreviewImage.t) (s : State) :
  PreviewImage.name <$> previewImages s = File.name <$> images s ->
  NoDup (PreviewImage.url <$> previewImages s) ->
  NoDup (File.name <$> images s) ->
  image ∈ previewImages s ->
  length (previewImages (handleRemoveImage image s)) + 1
    = length (previewImages s)
  /\ length (images (handleRemoveImage image s)) + 1 = length (images s).
Proof.
  intros Hmirror Hurls Hnames Himage.
  destruct (handleRemoveImage_lists image s) as [-> ->]. split.
  - apply filter_other_keys_present; [exact Hurls|].
    now apply list_elem_of_fmap_2.
  - apply filter_other_keys_present; [exact Hnames|].
    rewrite <- Hmirror. now apply list_elem_of_fmap_2.
Qed.

(** Removing a preview whose URL and name the gallery does not hold changes
    neither list. *)
Lemma handleRemoveImage_absent (image : PreviewImage.t) (s : State) :
  PreviewImage.url image ∉ PreviewImage.url <$> previewImages s ->
  PreviewImage.name image ∉ File.name <$> images s ->
  previewImages (handleRemoveImage image s) = previewImages s
  /\ images (handleRemoveImage image s) = images s.
Proof.
  intros Hurl Hname.
  destruct (handleRemoveImage_lists image s) as [-> ->].
  split; now apply filter_other_keys_absent.
Qed.

(** C5, at a gallery of two files that carry one name. The first preview is
    shown; removing it drops that one preview, and drops both files, since
    the files are matched by name: the file list is shortened by two. *)
Theorem remove_with_shared_name :
  let s := (handleSelectImages (Some [Sample.twin1; Sample.twin2])
              initialState Sample.freshWorld).1 in
  let a := PreviewImage.mk "photo.png" "blob:0" in
  a ∈ previewImages s
  /\ length (previewImages s) = 2
  /\ length (images s) = 2
  /\ previewImages (handleRemoveImage a s)
     = [PreviewImage.mk "photo.png" "blob:1"]
  /\ images (handleRemoveImage a s) = [].
Proof.
  cbv zeta. repeat split; try reflexivity. vm_compute. left.
Qed.

(** ** The snapshot of the selected position *)

(** X15. The guards of the snapshot change nothing: the location that is
    validated is, as a pair of numbers, the selected position. *)
Theorem snapshot_is_selected_position (s : State) :
  (ILocation.latitude (payload_location (payload_of s))
   == (selectedPosition s).1)%Q
  /\ (ILocation.longitude (payload_location (payload_of s))
      == (selectedPosition s).2)%Q.
Proof.
  unfold payload_of. simpl. split.
  - destruct (JS.truthy (selectedPosition s).1) eqn:E; [reflexivity|].
    apply truthy_false_zero in E. now rewrite E.
  - destruct (JS.truthy (selectedPosition s).2) eqn:E; [reflexivity|].
    apply truthy_false_zero in E. now rewrite E.
Qed.

(** ** The alerts after a submit, field by field *)

(** The errors of a payload with their messages, one case distinction per
    test. *)
Lemma errors_by_cases (p : Payload) :
  dataSchema.errors p =
  (if Nat.eqb (String.length (payload_name p)) 0
   then [mkError "name" "Campo obrigatório"] else [])
  ++ (if Nat.eqb (String.length (payload_description p)) 0
      then [mkError "description" "Campo obrigatório"]
      else if Nat.leb (String.length (payload_description p)) 300 then []
      else [mkError "description"
              "Descrição muito longa, informe até 300 caracteres"])
  ++ (if JS.truthy (ILocation.latitude (payload_location p))
         && JS.truthy (ILocation.longitude (payload_location p))
      then [] else [mkError "location" "Informe a localizaçao no mapa"])
  ++ (if Nat.eqb (length (payload_images p)) 0
      then [mkError "images" "Envie pelo menos uma foto"]
      else if Nat.leb (length (payload_images p)) 5 then []
      else [mkError "images" "Adicione até 5 fotos"])
  ++ (if Nat.eqb (String.length (payload_opening_hours p)) 0
      then [mkError "opening_hours" "Campo obrigatório"] else []).
Proof.
  unfold dataSchema.errors.
  rewrite validate_description, validate_location, validate_images.
  unfold dataSchema.name, dataSchema.opening_hours.
  now rewrite !validate_required.
Qed.

(** The five alerts after a submit, as the tests of the schema decide them. *)
Lemma alerts_after_submit (api : Api) (s : State) (w : World) :
  let s' := (handleSubmit api s w).1 in
  let p := payload_of s in
  alertName s'
    = (if Nat.eqb (String.length (payload_name p)) 0
       then "Campo obrigatório" else "")
  /\ alertDescription s'
     = (if Nat.eqb (String.length (payload_description p)) 0
        then "Campo obrigatório"
        else if Nat.leb (String.length (payload_description p)) 300 then ""
        else "Descrição muito longa, informe até 300 caracteres")
  /\ alertPosition s'
     = (if JS.truthy (ILocation.latitude (payload_location p))
           && JS.truthy (ILocation.longitude (payload_location p))
        then "" else "Informe a localizaçao no mapa")
  /\ alertImages s'
     = (if Nat.eqb (length (payload_images p)) 0
        then "Envie pelo menos uma foto"
        else if Nat.leb (length (payload_images p)) 5 then ""
        else "Adicione até 5 fotos")
  /\ alertOh s'
     = (if Nat.eqb (String.length (payload_opening_hours p)) 0
        then "Campo obrigatório" else "").
Proof.
  intros s' p. subst s'. rewrite handleSubmit_state. fold p.
  rewrite (errors_by_cases p).
  destruct (Nat.eqb (String.length (payload_name p)) 0),
    (Nat.eqb (String.length (payload_description p)) 0),
    (Nat.leb (String.length (payload_description p)) 300),
    (JS.truthy (ILocation.latitude (payload_location p))),
    (JS.truthy (ILocation.longitude (payload_location p))),
    (Nat.eqb (length (payload_images p)) 0),
    (Nat.leb (length (payload_images p)) 5),
    (Nat.eqb (String.length (payload_opening_hours p)) 0);
    repeat split.
Qed.

Lemma truthy_snapshot (x : Q) :
  JS.truthy (if JS.truthy x then x else 0) = JS.truthy x.
Proof. now destruct (JS.truthy x) eqn:E. Qed.

(** X2. After a submit, whatever its outcome, each alert is decided by its own
    field of the form: the name and the opening hours show the required
    message when empty; the description shows the required message when
    empty and the too-long message above 300 characters; the position shows
    its message when a selected coordinate is zero; the images show one
    message for an empty gallery and another above five files. Otherwise
    the alert is empty. *)
Theorem submit_alerts_by_field (api : Api) (s : State) (w : World) :
  let s' := (handleSubmit api s w).1 in
  (name s = "" -> alertName s' = "Campo obrigatório")
  /\ (name s <> "" -> alertName s' = "")
  /\ (description s = "" -> alertDescription s' = "Campo obrigatório")
  /\ (300 < String.length (description s) ->
      alertDescription s'
      = "Descrição muito longa, informe até 300 caracteres")
  /\ (description s <> "" -> String.length (description s) <= 300 ->
      alertDescription s' = "")
  /\ (((selectedPosition s).1 == 0)%Q \/ ((selectedPosition s).2 == 0)%Q ->
      alertPosition s' = "Informe a localizaçao no mapa")
  /\ (~ ((selectedPosition s).1 == 0)%Q -> ~ ((selectedPosition s).2 == 0)%Q ->
      alertPosition s' = "")
  /\ (images s = [] -> alertImages s' = "Envie pelo menos uma foto")
  /\ (5 < length (images s) -> alertImages s' = "Adicione até 5 fotos")
  /\ (1 <= length (images s) <= 5 -> alertImages s' = "")
  /\ (opening_hours s = "" -> alertOh s' = "Campo obrigatório")
  /\ (opening_hours s <> "" -> alertOh s' = "").
Proof.
  intros s'. subst s'.
  destruct (alerts_after_submit api s w) as (-> & -> & -> & -> & ->).
  simpl. rewrite !truthy_snapshot.
  repeat match goal with |- _ /\ _ => split end.
  - intros ->. reflexivity.
  - intros Hn. destruct (Nat.eqb_spec (String.length (name s)) 0) as [E|E];
      [|reflexivity]. now apply length_zero_empty in E.
  - intros ->. reflexivity.
  - intros Hlen.
    destruct (Nat.eqb_spec (String.length (description s)) 0); [lia|].
    destruct (Nat.leb_spec (String.length (description s)) 300);
      [lia|reflexivity].
  - intros Hd Hlen.
    destruct (Nat.eqb_spec (String.length (description s)) 0) as [E|E];
      [now apply length_zero_empty in E|].
    destruct (Nat.leb_spec (String.length (description s)) 300);
      [reflexivity|lia].
  - intros [H|H]; apply truthy_false_zero in H; rewrite H;
      [reflexivity|now rewrite andb_false_r].
  - intros H1 H2. apply truthy_nonzero in H1, H2. now rewrite H1, H2.
  - intros ->. reflexivity.
  - intros Hlen. destruct (Nat.eqb_spec (length (images s)) 0); [lia|].
    destruct (Nat.leb_spec (length (images s)) 5); [lia|reflexivity].
  - intros Hlen. destruct (Nat.eqb_spec (length (images s)) 0); [lia|].
    destruct (Nat.leb_spec (length (images s)) 5); [reflexivity|lia].
  - intros ->. reflexivity.
  - intros Hn.
    destruct (Nat.eqb_spec (String.length (opening_hours s)) 0) as [E|E];
      [|reflexivity]. now apply length_zero_empty in E.
Qed.

Lemma submit_alerts_by_field_witness :
  let s' := (handleSubmit Sample.api_ok
               (setDescription Sample.description300
                  (setImages (replicate 6 Sample.photo1) Sample.unnamed))
               Sample.freshWorld).1 in
  alertName s' = "Campo obrigatório"
  /\ alertDescription s' = ""
  /\ alertPosition s' = ""
  /\ alertImages s' = "Adicione até 5 fotos"
  /\ alertOh s' = "".
Proof.
  destruct (submit_alerts_by_field Sample.api_ok
              (setDescription Sample.description300
                 (setImages (replicate 6 Sample.photo1) Sample.unnamed))
              Sample.freshWorld)
    as (Hn & _ & _ & _ & Hd & _ & Hp & _ & Hi & _ & _ & Ho).
  cbv zeta. split; [apply Hn; reflexivity|].
  split; [apply Hd; [discriminate|vm_compute; lia]|].
  split; [apply Hp; unfold Qeq; simpl; lia|].
  split; [apply Hi; simpl; lia|].
  apply Ho. discriminate.
Defined.

(** ** A request that succeeds *)

(** X1. When the request of a valid draft succeeds, the handler makes that one
    request, shows the one success notice and navigates to the map; the
    five alerts are empty. *)
Theorem resolved_submission (api : Api) (s : State) (w : World) :
  dataSchema.errors (payload_of s) = [] ->
  api "orphanages" (formData_of s w) = Resolved ->
  let s' := (handleSubmit api s w).1 in
  let w' := (handleSubmit api s w).2 in
  posts w' = posts w ++ [("orphanages", formData_of s w)]
  /\ modals w' = modals w ++
       [Swal.fire "Uhull!" (Swal.text "Orfanato cadastrado com sucesso.")
          "success" "Ok"]
  /\ navigations w' = navigations w ++ ["/map"]
  /\ (alertName s', alertDescription s', alertPosition s', alertImages s',
      alertOh s') = ("", "", "", "", "").
Proof.
  intros Hvalid Hresolved s' w'. subst s' w'.
  rewrite (handleSubmit_valid api s w Hvalid). simpl. rewrite Hresolved.
  repeat split.
Qed.

Lemma resolved_submission_witness :
  navigations (handleSubmit Sample.api_ok Sample.filled Sample.freshWorld).2
  = ["/map"].
Proof.
  destruct (resolved_submission Sample.api_ok Sample.filled Sample.freshWorld)
    as (_ & _ & Hnav & _); [reflexivity|reflexivity|].
  exact Hnav.
Defined.

(** ** What a submit leaves alone *)

Lemma setAlert_draft (e : ValidationError) (s : State) :
  draft (setAlert e s) = draft s.
Proof.
  unfold setAlert.
  repeat match goal with
         | |- context [String.eqb (path e) ?t] =>
             destruct (String.eqb (path e) t)
         end; reflexivity.
Qed.

Lemma setAlert_resetAlerts (e : ValidationError) (s : State) :
  resetAlerts (setAlert e s) = resetAlerts s.
Proof.
  unfold setAlert.
  repeat match goal with
         | |- context [String.eqb (path e) ?t] =>
             destruct (String.eqb (path e) t)
         end; reflexivity.
Qed.

Lemma forEach_setAlert_draft (inner : list ValidationError) (s : State) :
  draft (foldl (fun st e => setAlert e st) s inner) = draft s
  /\ resetAlerts (foldl (fun st e => setAlert e st) s inner) = resetAlerts s.
Proof.
  revert s. induction inner as [|e inner IH]; intros s; [easy|].
  simpl. destruct (IH (setAlert e s)) as [-> ->].
  now rewrite setAlert_draft, setAlert_resetAlerts.
Qed.

Lemma payload_of_draft (s1 s2 : State) :
  draft s1 = draft s2 -> payload_of s1 = payload_of s2.
Proof.
  unfold draft, payload_of. intros Heq. injection Heq as _ -> -> -> -> _ -> _.
  reflexivity.
Qed.

Lemma formData_of_draft (s1 s2 : State) (w1 w2 : World) :
  draft s1 = draft s2 -> localStorage w1 = localStorage w2 ->
  formData_of s1 w1 = formData_of s2 w2.
Proof.
  unfold draft, formData_of, getItem.
  intros Heq ->. injection Heq as _ _ -> -> -> -> -> _. reflexivity.
Qed.

Lemma handleSubmit_world (api : Api) (s : State) (w : World) :
  localStorage (handleSubmit api s w).2 = localStorage w
  /\ blobs (handleSubmit api s w).2 = blobs w.
Proof.
  unfold handleSubmit, api_post.
  destruct (dataSchema.validate (payload_of s)); [|easy].
  destruct (api "orphanages" (formData_of s w)) as [|bcode]; [easy|].
  now destruct (Z.eqb bcode 1001).
Qed.

(** X3. A submit, whatever its outcome and even when it succeeds, changes
    nothing but the five alerts: the texts, the weekend flag, the selected
    position and the gallery stay as typed, the device cache is not written
    and no object URL is created. *)
Theorem submit_keeps_draft (api : Api) (s : State) (w : World) :
  let s' := (handleSubmit api s w).1 in
  let w' := (handleSubmit api s w).2 in
  name s' = name s
  /\ description s' = description s
  /\ opening_hours s' = opening_hours s
  /\ open_on_weekends s' = open_on_weekends s
  /\ selectedPosition s' = selectedPosition s
  /\ loadPosition s' = loadPosition s
  /\ images s' = images s
  /\ previewImages s' = previewImages s
  /\ localStorage w' = localStorage w
  /\ blobs w' = blobs w.
Proof.
  intros s' w'. subst s' w'.
  destruct (handleSubmit_world api s w) as [Hcache Hblobs].
  rewrite handleSubmit_state.
  destruct (forEach_setAlert_draft (dataSchema.errors (payload_of s))
              (resetAlerts s)) as [Hdraft _].
  unfold draft in Hdraft. simpl in Hdraft.
  injection Hdraft as -> -> -> -> -> -> -> ->.
  repeat split; assumption.
Qed.

Lemma handleSubmit_draft (api : Api) (s : State) (w : World) :
  draft (handleSubmit api s w).1 = draft s.
Proof.
  rewrite handleSubmit_state.
  now destruct (forEach_setAlert_draft (dataSchema.errors (payload_of s))
                  (resetAlerts s)) as [-> _].
Qed.

(** X4. A submit right after a submit, with the form untouched in between,
    leaves the state as the first one left it, whatever the two outcomes:
    the same alerts are shown again. *)
Theorem resubmit_same_state (api1 api2 : Api) (s : State) (w1 w2 : World) :
  (handleSubmit api2 (handleSubmit api1 s w1).1 w2).1
  = (handleSubmit api1 s w1).1.
Proof.
  rewrite (handleSubmit_state api2).
  rewrite (payload_of_draft _ s (handleSubmit_draft api1 s w1)).
  rewrite (handleSubmit_state api1).
  now destruct (forEach_setAlert_draft (dataSchema.errors (payload_of s))
                  (resetAlerts s)) as [_ ->].
Qed.

(** X5. Nothing holds back a second submit: for a valid draft, two submits in a
    row make two requests with one and the same payload, whatever the
    answer to the first. *)
Theorem double_submit_posts_twice (api1 api2 : Api) (s : State) (w : World) :
  dataSchema.errors (payload_of s) = [] ->
  let r1 := handleSubmit api1 s w in
  let r2 := handleSubmit api2 r1.1 r1.2 in
  posts r2.2
  = posts w ++ [("orphanages", formData_of s w);
                ("orphanages", formData_of s w)].
Proof.
  intros Hvalid r1 r2. subst r1 r2.
  pose proof (handleSubmit_draft api1 s w) as Hdraft.
  destruct (handleSubmit_world api1 s w) as [Hcache _].
  assert (Hvalid' : dataSchema.errors (payload_of (handleSubmit api1 s w).1) = [])
    by now rewrite (payload_of_draft _ s Hdraft).
  assert (Hposts : forall api s w, dataSchema.errors (payload_of s) = [] ->
            posts (handleSubmit api s w).2
            = posts w ++ [("orphanages", formData_of s w)]).
  { intros api s0 w0 H0. rewrite (handleSubmit_valid api s0 w0 H0). simpl.
    destruct (api "orphanages" (formData_of s0 w0)); reflexivity. }
  rewrite (Hposts api2 _ _ Hvalid'), (Hposts api1 _ _ Hvalid).
  rewrite (formData_of_draft _ s _ w Hdraft Hcache).
  now rewrite <- app_assoc.
Qed.

Lemma double_submit_posts_twice_witness :
  length
    (posts
       (handleSubmit Sample.api_ok
          (handleSubmit Sample.api_conflict Sample.filled Sample.freshWorld).1
          (handleSubmit Sample.api_conflict Sample.filled Sample.freshWorld).2).2)
  = 2.
Proof.
  rewrite (double_submit_posts_twice Sample.api_conflict Sample.api_ok
             Sample.filled Sample.freshWorld); reflexivity.
Defined.

(** ** More on removing from the gallery *)

Lemma handleRemoveImage_filters (image : PreviewImage.t) (s : State) :
  handleRemoveImage image s
  = setImages
      (filter (fun img => File.name img <> PreviewImage.name image) (images s))
      (setPreviewImages
         (filter (fun img => PreviewImage.url img <> PreviewImage.url image)
            (previewImages s)) s).
Proof.
  unfold handleRemoveImage.
  change (fun image0 : PreviewImage.t => image0) with (@id PreviewImage.t).
  change (fun image0 : File.t => image0) with (@id File.t).
  now rewrite !list_fmap_id.
Qed.

Lemma filter_swap {A : Type} (P Q : A -> Prop) `{!forall x, Decision (P x)}
    `{!forall x, Decision (Q x)} (l : list A) :
  filter P (filter Q l) = filter Q (filter P l).
Proof.
  rewrite !list_filter_filter. apply list_filter_iff. tauto.
Qed.

Lemma filter_split_length {A : Type} (P : A -> Prop)
    `{!forall x, Decision (P x)} (l : list A) :
  length (filter (fun x => ~ P x) l) + length (filter P l) = length l.
Proof.
  induction l as [|a l IH]; [reflexivity|].
  rewrite !filter_cons.
  destruct (decide (P a)), (decide (~ P a)); simpl; try tauto; lia.
Qed.

(** X7. Removing a preview a second time changes nothing more. *)
Theorem remove_twice (image : PreviewImage.t) (s : State) :
  handleRemoveImage image (handleRemoveImage image s)
  = handleRemoveImage image s.
Proof.
  rewrite !handleRemoveImage_filters.
  unfold setImages, setPreviewImages. simpl.
  f_equal; apply list_filter_filter_l; tauto.
Qed.

(** X8. Two removals give the same gallery in either order. *)
Theorem remove_commutes (image1 image2 : PreviewImage.t) (s : State) :
  handleRemoveImage image1 (handleRemoveImage image2 s)
  = handleRemoveImage image2 (handleRemoveImage image1 s).
Proof.
  rewrite !handleRemoveImage_filters.
  unfold setImages, setPreviewImages. simpl.
  f_equal; apply filter_swap.
Qed.

(** X9. What a removal drops and what it keeps: the previews that remain are
    those with another URL and the files that remain are those with another
    name, both in their order; the number of files dropped is the number of
    files that carry the name of the preview, be it none, one or several;
    nothing else of the state changes. *)
Theorem remove_drops_every_match (image : PreviewImage.t) (s : State) :
  let s' := handleRemoveImage image s in
  (forall p, p ∈ previewImages s'
             <-> p ∈ previewImages s
                 /\ PreviewImage.url p <> PreviewImage.url image)
  /\ (forall f, f ∈ images s'
                <-> f ∈ images s /\ File.name f <> PreviewImage.name image)
  /\ previewImages s' `sublist_of` previewImages s
  /\ images s' `sublist_of` images s
  /\ length (images s')
     + length (filter (fun f => File.name f = PreviewImage.name image)
                 (images s))
     = length (images s)
  /\ length (previewImages s')
     + length (filter (fun p => PreviewImage.url p = PreviewImage.url image)
                 (previewImages s))
     = length (previewImages s)
  /\ (name s', description s', opening_hours s', open_on_weekends s',
      selectedPosition s', loadPosition s')
     = (name s, description s, opening_hours s, open_on_weekends s,
        selectedPosition s, loadPosition s)
  /\ (alertName s', alertDescription s', alertPosition s', alertImages s',
      alertOh s')
     = (alertName s, alertDescription s, alertPosition s, alertImages s,
        alertOh s).
Proof.
  intros s'. subst s'. rewrite handleRemoveImage_filters.
  unfold setImages, setPreviewImages. simpl.
  split; [intros p; rewrite list_elem_of_filter; tauto|].
  split; [intros f; rewrite list_elem_of_filter; tauto|].
  split; [apply sublist_filter|].
  split; [apply sublist_filter|].
  split;
    [apply (filter_split_length
              (fun f => File.name f = PreviewImage.name image))|].
  split;
    [apply (filter_split_length
              (fun p => PreviewImage.url p = PreviewImage.url image))|].
  split; reflexivity.
Qed.

(** ** A pick, then a submit *)

Lemma selectedImagesPreview_world (l : list File.t) (w : World) :
  (selectedImagesPreview l w).2
  = mkWorld (localStorage w) (blobs w + length l) (posts w) (modals w)
      (navigations w).
Proof.
  revert w. induction l as [|image l IH]; intros w.
  - simpl. rewrite Nat.add_0_r. now destruct w.
  - rewrite selectedImagesPreview_cons. cbn [snd]. rewrite IH. simpl.
    f_equal. lia.
Qed.

Lemma handleSelectImages_world (files : option (list File.t)) (s : State)
    (w : World) :
  let w' := (handleSelectImages files s w).2 in
  localStorage w' = localStorage w /\ posts w' = posts w
  /\ modals w' = modals w /\ navigations w' = navigations w.
Proof.
  destruct files as [files|]; [|easy].
  rewrite handleSelectImages_pick. cbn [snd].
  now rewrite selectedImagesPreview_world.
Qed.

(** A submit that leaves an alert makes no request. *)
Lemma alert_left_no_request (api : Api) (s : State) (w : World) (msg : string) :
  alertImages (handleSubmit api s w).1 = msg -> msg <> "" ->
  (handleSubmit api s w).2 = w.
Proof.
  intros Halert Hmsg. apply handleSubmit_invalid. intros Hvalid.
  rewrite handleSubmit_state, Hvalid in Halert. simpl in Halert. congruence.
Qed.

(** X6. The file input does not bound a pick. After a pick of no file, or of
    more than five files, a submit is refused whatever the rest of the form
    holds: it makes no request and leaves the message of the images rule;
    after a pick of one to five files the images alert is empty. *)
Theorem pick_then_submit (api : Api) (files : list File.t) (s : State)
    (w : World) :
  let picked := handleSelectImages (Some files) s w in
  let r := handleSubmit api picked.1 picked.2 in
  (files = [] ->
   alertImages r.1 = "Envie pelo menos uma foto" /\ posts r.2 = posts w)
  /\ (5 < length files ->
      alertImages r.1 = "Adicione até 5 fotos" /\ posts r.2 = posts w)
  /\ (1 <= length files <= 5 -> alertImages r.1 = "").
Proof.
  intros picked r. subst r.
  destruct (handleSelectImages_world (Some files) s w) as (_ & Hposts & _).
  fold picked in Hposts.
  destruct (alerts_after_submit api picked.1 picked.2)
    as (_ & _ & _ & Himages & _).
  assert (Hgallery : payload_images (payload_of picked.1) = files)
    by (subst picked; now rewrite handleSelectImages_pick).
  rewrite Hgallery in Himages.
  assert (Hrefused : forall msg,
            alertImages (handleSubmit api picked.1 picked.2).1 = msg ->
            msg <> "" ->
            posts (handleSubmit api picked.1 picked.2).2 = posts w).
  { intros msg Hmsg Hne.
    now rewrite (alert_left_no_request _ _ _ _ Hmsg Hne). }
  split; [|split].
  - intros Hnil. rewrite Hnil in Himages. simpl in Himages.
    split; [exact Himages|]. now apply (Hrefused _ Himages).
  - intros Hlen.
    destruct (Nat.eqb_spec (length files) 0); [lia|].
    destruct (Nat.leb_spec (length files) 5); [lia|].
    split; [exact Himages|]. now apply (Hrefused _ Himages).
  - intros Hlen.
    destruct (Nat.eqb_spec (length files) 0); [lia|].
    destruct (Nat.leb_spec (length files) 5); [exact Himages|lia].
Qed.

Lemma pick_then_submit_witness :
  alertImages
    (handleSubmit Sample.api_ok
       (handleSelectImages (Some (replicate 6 Sample.photo1)) Sample.filled
          Sample.freshWorld).1
       (handleSelectImages (Some (replicate 6 Sample.photo1)) Sample.filled
          Sample.freshWorld).2).1
  = "Adicione até 5 fotos".
Proof.
  destruct (pick_then_submit Sample.api_ok (replicate 6 Sample.photo1)
              Sample.filled Sample.freshWorld) as (_ & Hmany & _).
  apply Hmany. simpl. lia.
Defined.

(** ** Sessions: what holds after any sequence of events *)

Lemma run_cons (ev : Event) (evs : list Event) (sw : State * World) :
  run (ev :: evs) sw = run evs (handle ev sw).
Proof. reflexivity. Qed.

(** *** The requests of a session *)

Lemma valid_fields (p : Payload) :
  dataSchema.errors p = [] ->
  payload_name p <> "" /\ payload_description p <> ""
  /\ String.length (payload_description p) <= 300
  /\ 1 <= length (payload_images p) <= 5
  /\ payload_opening_hours p <> "".
Proof.
  intros Hvalid. apply (f_equal (fmap path)) in Hvalid.
  rewrite error_paths in Hvalid.
  destruct (name_fails p) eqn:En; [discriminate|].
  destruct (description_fails p) eqn:Ed; [discriminate|].
  destruct (location_fails p); [discriminate|].
  destruct (images_fails p) eqn:Ei; [discriminate|].
  destruct (opening_hours_fails p) eqn:Eo; [discriminate|].
  assert (Hd : ~ (payload_description p = ""
                  \/ 300 < String.length (payload_description p)))
    by (rewrite description_fails_iff; congruence).
  assert (Hi : ~ (payload_images p = [] \/ 5 < length (payload_images p)))
    by (rewrite images_fails_iff; congruence).
  split; [rewrite name_fails_iff; congruence|].
  split; [tauto|]. split; [lia|].
  split; [|rewrite opening_hours_fails_iff; congruence].
  destruct (payload_images p); simpl in *; [tauto|lia].
Qed.

Lemma valid_request_wellformed (s : State) (w : World) :
  dataSchema.errors (payload_of s) = [] ->
  wellformed_request (localStorage w) ("orphanages", formData_of s w).
Proof.
  intros Hvalid. apply valid_fields in Hvalid as (Hn & Hd & Hlen & Hi & Ho).
  split; [reflexivity|].
  exists (name s), (description s), (opening_hours s),
    (JS.String_of_bool (open_on_weekends s)), (images s).
  split; [apply formData_of_entries|].
  repeat split; try assumption; try apply Hi.
  destruct (open_on_weekends s); [now left|now right].
Qed.

(** What one event adds to the logs of the world. *)
Lemma handle_logs (ev : Event) (sw : State * World) :
  localStorage (handle ev sw).2 = localStorage sw.2
  /\ exists ps ms ns,
       posts (handle ev sw).2 = posts sw.2 ++ ps
       /\ modals (handle ev sw).2 = modals sw.2 ++ ms
       /\ navigations (handle ev sw).2 = navigations sw.2 ++ ns
       /\ length ms = length ps /\ length ns <= length ps
       /\ Forall (wellformed_request (localStorage sw.2)) ps
       /\ Forall (fun route => route = "/map") ns.
Proof.
  destruct sw as [s w].
  assert (Hnothing : forall w' : World,
            localStorage w' = localStorage w -> posts w' = posts w ->
            modals w' = modals w -> navigations w' = navigations w ->
            localStorage w' = localStorage w
            /\ exists ps ms ns,
                 posts w' = posts w ++ ps /\ modals w' = modals w ++ ms
                 /\ navigations w' = navigations w ++ ns
                 /\ length ms = length ps /\ length ns <= length ps
                 /\ Forall (wellformed_request (localStorage w)) ps
                 /\ Forall (fun route => route = "/map") ns).
  { intros w' Hc Hp Hm Hn. split; [exact Hc|]. exists [], [], [].
    rewrite !app_nil_r. repeat split; auto. }
  destruct ev as [coords|lat lng|v|v|v|v|files|image|answer]; simpl;
    try (now apply Hnothing).
  - destruct (handleSelectImages_world files s w) as (Hc & Hp & Hm & Hn).
    now apply Hnothing.
  - destruct (dataSchema.errors (payload_of s)) eqn:Hvalid.
    + rewrite (handleSubmit_valid _ s w Hvalid). simpl.
      pose proof (valid_request_wellformed s w Hvalid) as Hwf.
      destruct answer as [|bcode]; simpl; (split; [reflexivity|]).
      * eexists [_], [_], ["/map"]. repeat split; auto.
      * eexists [_], [_], [].
        split; [reflexivity|]. split; [reflexivity|].
        split; [now rewrite app_nil_r|]. repeat split; simpl; auto.
    + rewrite handleSubmit_invalid by (rewrite Hvalid; discriminate).
      now apply Hnothing.
Qed.

Lemma run_logs (evs : list Event) (sw : State * World) :
  localStorage (run evs sw).2 = localStorage sw.2
  /\ exists ps ms ns,
       posts (run evs sw).2 = posts sw.2 ++ ps
       /\ modals (run evs sw).2 = modals sw.2 ++ ms
       /\ navigations (run evs sw).2 = navigations sw.2 ++ ns
       /\ length ms = length ps /\ length ns <= length ps
       /\ Forall (wellformed_request (localStorage sw.2)) ps
       /\ Forall (fun route => route = "/map") ns.
Proof.
  revert sw. induction evs as [|ev evs IH]; intros sw.
  - split; [reflexivity|]. exists [], [], []. rewrite !app_nil_r.
    repeat split; auto.
  - rewrite run_cons.
    destruct (IH (handle ev sw))
      as (Hc2 & ps2 & ms2 & ns2 & Hp2 & Hm2 & Hn2 & Hl2 & Hle2 & Hwf2 & Hmap2).
    destruct (handle_logs ev sw)
      as (Hc1 & ps1 & ms1 & ns1 & Hp1 & Hm1 & Hn1 & Hl1 & Hle1 & Hwf1 & Hmap1).
    rewrite Hc1 in Hc2, Hwf2. split; [exact Hc2|].
    exists (ps1 ++ ps2), (ms1 ++ ms2), (ns1 ++ ns2).
    rewrite Hp2, Hp1, Hm2, Hm1, Hn2, Hn1, !length_app, <- !app_assoc.
    repeat split; try lia; now apply Forall_app.
Qed.

(** X10. Whatever the user does and in whatever state the form starts, every
    request that the form makes is well formed: it goes to [orphanages] and
    carries a name, a description of at most 300 characters and opening
    hours that are not empty, the weekend flag as [true] or [false], the
    position that the device cache held at the start, and one to five
    images. The cache itself is never written. *)
Theorem every_request_wellformed (evs : list Event) (s0 : State)
    (w0 : World) :
  localStorage (run evs (s0, w0)).2 = localStorage w0
  /\ exists ps,
       posts (run evs (s0, w0)).2 = posts w0 ++ ps
       /\ Forall (wellformed_request (localStorage w0)) ps.
Proof.
  destruct (run_logs evs (s0, w0))
    as (Hc & ps & ms & ns & Hp & _ & _ & _ & _ & Hwf & _).
  split; [exact Hc|]. now exists ps.
Qed.


(** The sample session, run: one request with the one photo that was kept,
    one notice, one navigation. *)
Example session_logs :
  let w := (run Sample.session (initialState, Sample.freshWorld)).2 in
  FormData.getAll "images" <$> (snd <$> posts w)
    = [[FormData.Binary Sample.photo1]]
  /\ Swal.icon <$> modals w = ["success"]
  /\ navigations w = ["/map"].
Proof. repeat split. Qed.

(** *** The gallery of a session *)

Section Keys.

Context {A K : Type} `{EqDecision K} (f : A -> K).

Lemma NoDup_key_eq (l : list A) (x y : A) :
  NoDup (f <$> l) -> x ∈ l -> y ∈ l -> f x = f y -> x = y.
Proof.
  induction l as [|a l IH]; intros Hnd Hx Hy Heq; [inversion Hx|].
  rewrite fmap_cons in Hnd. apply NoDup_cons in Hnd as [Ha Hnd].
  apply elem_of_cons in Hx as [->|Hx]; apply elem_of_cons in Hy as [->|Hy].
  - reflexivity.
  - exfalso. apply Ha. rewrite Heq. now apply list_elem_of_fmap_2.
  - exfalso. apply Ha. rewrite <- Heq. now apply list_elem_of_fmap_2.
  - now apply IH.
Qed.

Lemma fmap_filter_key (l : list A) (k : K) :
  f <$> filter (fun y => f y <> k) l = filter (fun x => x <> k) (f <$> l).
Proof.
  induction l as [|a l IH]; [reflexivity|].
  rewrite fmap_cons, !filter_cons.
  destruct (decide (f a <> k)); [rewrite fmap_cons|]; now rewrite IH.
Qed.

End Keys.

Lemma sublist_filter_mono {A : Type} (P : A -> Prop)
    `{!forall x, Decision (P x)} (l1 l2 : list A) :
  l1 `sublist_of` l2 -> filter P l1 `sublist_of` filter P l2.
Proof.
  induction 1 as [|x l1 l2 _ IH|x l1 l2 _ IH]; [constructor| |].
  - rewrite !filter_cons. destruct (decide (P x)); [now constructor|exact IH].
  - rewrite filter_cons. destruct (decide (P x)); [now constructor|exact IH].
Qed.

Lemma filter_ext_in {A : Type} (P Q : A -> Prop) `{!forall x, Decision (P x)}
    `{!forall x, Decision (Q x)} (l : list A) :
  (forall x, x ∈ l -> P x <-> Q x) -> filter P l = filter Q l.
Proof.
  induction l as [|a l IH]; intros Hext; [reflexivity|].
  rewrite !filter_cons.
  assert (Ha : P a <-> Q a) by (apply Hext; left).
  rewrite IH by (intros x Hx; apply Hext; now right).
  destruct (decide (P a)), (decide (Q a)); tauto.
Qed.

Lemma handleRemoveImage_consistent (image : PreviewImage.t) (s : State) :
  gallery_consistent s -> image ∈ previewImages s ->
  gallery_consistent (handleRemoveImage image s).
Proof.
  intros [Hurls Hnames] Himage. rewrite handleRemoveImage_filters.
  unfold gallery_consistent, setImages, setPreviewImages. simpl. split.
  - apply (sublist_NoDup _ _ Hurls). apply fmap_sublist, sublist_filter.
  - rewrite fmap_filter_key.
    transitivity (filter (fun n => n <> PreviewImage.name image)
                    (PreviewImage.name <$> previewImages s));
      [now apply sublist_filter_mono|].
    rewrite <- fmap_filter_key. apply fmap_sublist.
    assert (Heq :
      filter (fun img => PreviewImage.name img <> PreviewImage.name image)
        (previewImages s)
      = filter (fun img => PreviewImage.name img <> PreviewImage.name image)
          (filter (fun img => PreviewImage.url img <> PreviewImage.url image)
             (previewImages s))).
    { rewrite list_filter_filter. apply filter_ext_in. intros p Hp.
      split; [|tauto]. intros Hname. split; [exact Hname|].
      intros Hurl. apply Hname.
      now rewrite (NoDup_key_eq PreviewImage.url _ p image Hurls Hp Himage
                     Hurl). }
    rewrite Heq. apply sublist_filter.
Qed.

Lemma handleSelectImages_consistent (files : option (list File.t)) (s : State)
    (w : World) :
  gallery_consistent s -> gallery_consistent (handleSelectImages files s w).1.
Proof.
  intros Hs. destruct files as [files|]; [|exact Hs].
  rewrite handleSelectImages_pick. unfold gallery_consistent. simpl. split.
  - apply selectedImagesPreview_urls_NoDup.
  - now rewrite selectedImagesPreview_names.
Qed.

Lemma handle_consistent (ev : Event) (sw : State * World) :
  gallery_consistent sw.1 -> offered ev sw.1 ->
  gallery_consistent (handle ev sw).1.
Proof.
  destruct sw as [s w]. intros Hs Hev.
  destruct ev as [coords|lat lng|v|v|v|v|files|image|answer]; simpl in *;
    try exact Hs.
  - now apply handleSelectImages_consistent.
  - now apply handleRemoveImage_consistent.
  - pose proof (handleSubmit_draft (fun _ _ => answer) s w) as Hdraft.
    unfold draft in Hdraft. injection Hdraft as _ _ _ _ _ _ Hi Hp.
    unfold gallery_consistent. now rewrite Hi, Hp.
Qed.

Lemma run_consistent (evs : list Event) (sw : State * World) :
  gallery_consistent sw.1 -> offered_along evs sw ->
  gallery_consistent (run evs sw).1.
Proof.
  revert sw. induction evs as [|ev evs IH]; intros sw Hs Hevs; [exact Hs|].
  destruct Hevs as [Hev Hevs]. rewrite run_cons.
  apply IH; [now apply handle_consistent|exact Hevs].
Qed.

(** X12. After any session of events that the page offers, the keys of the
    rendered previews are pairwise different, and the names of the files
    are, in order, names of previews on screen: no file is sent whose
    preview is not shown, and there are never more files than previews. *)
Theorem gallery_stays_consistent (evs : list Event) (w0 : World) :
  offered_along evs (initialState, w0) ->
  let s := (run evs (initialState, w0)).1 in
  NoDup (image_keys (render s))
  /\ (File.name <$> images s) `sublist_of`
       (PreviewImage.name <$> previewImages s)
  /\ length (images s) <= length (previewImages s)
  /\ (forall f, f ∈ images s ->
        exists p, p ∈ previewImages s
                  /\ PreviewImage.name p = File.name f).
Proof.
  intros Hevs s.
  assert (Hs : gallery_consistent s).
  { apply run_consistent; [|exact Hevs]. split; [constructor|reflexivity]. }
  destruct Hs as [Hurls Hnames].
  split; [exact Hurls|]. split; [exact Hnames|]. split.
  - apply sublist_length in Hnames. now rewrite !length_fmap in Hnames.
  - intros f Hf. apply (list_elem_of_fmap_2 File.name) in Hf.
    apply (elem_of_sublist _ _ _ Hf) in Hnames.
    apply list_elem_of_fmap in Hnames as (p & Hname & Hp). now exists p.
Qed.

Lemma sample_session_offered :
  offered_along Sample.session (initialState, Sample.freshWorld).
Proof.
  simpl. repeat split; try discriminate. vm_compute. right. left.
Qed.

Lemma gallery_stays_consistent_witness :
  length (images (run Sample.session (initialState, Sample.freshWorld)).1)
  <= length
       (previewImages (run Sample.session (initialState, Sample.freshWorld)).1).
Proof.
  destruct (gallery_stays_consistent Sample.session Sample.freshWorld)
    as (_ & _ & Hlen & _); [exact sample_session_offered|exact Hlen].
Defined.

(** *** A session without a position *)

Lemma handle_position (ev : Event) (sw : State * World) :
  (loadPosition sw.1 = None -> selectedPosition sw.1 = (0, 0)%Q) ->
  offered ev sw.1 ->
  loadPosition (handle ev sw).1 = None ->
  selectedPosition (handle ev sw).1 = (0, 0)%Q.
Proof.
  destruct sw as [s w]. intros Hs Hev.
  destruct ev as [coords|lat lng|v|v|v|v|files|image|answer]; simpl in *;
    try exact Hs; try discriminate.
  - intros Hnone. contradiction.
  - destruct files as [files|]; [|exact Hs].
    rewrite handleSelectImages_pick. exact Hs.
  - pose proof (handleSubmit_draft (fun _ _ => answer) s w) as Hdraft.
    unfold draft in Hdraft. injection Hdraft as Hl Hsel _ _ _ _ _ _.
    now rewrite Hl, Hsel.
Qed.

Lemma run_position (evs : list Event) (sw : State * World) :
  (loadPosition sw.1 = None -> selectedPosition sw.1 = (0, 0)%Q) ->
  offered_along evs sw ->
  loadPosition (run evs sw).1 = None ->
  selectedPosition (run evs sw).1 = (0, 0)%Q.
Proof.
  revert sw. induction evs as [|ev evs IH]; intros sw Hs Hevs; [exact Hs|].
  destruct Hevs as [Hev Hevs]. rewrite run_cons.
  apply IH; [now apply handle_position|exact Hevs].
Qed.

(** X13. As long as no position of the device has arrived, the map is not
    rendered and takes no click: after any session offered by the page,
    a form without loaded position has the position (0, 0) selected. *)
Theorem no_position_no_selection (evs : list Event) (w0 : World) :
  offered_along evs (initialState, w0) ->
  loadPosition (run evs (initialState, w0)).1 = None ->
  selectedPosition (run evs (initialState, w0)).1 = (0, 0)%Q
  /\ map_view (render (run evs (initialState, w0)).1) = None.
Proof.
  intros Hevs Hnone. split.
  - now apply run_position.
  - unfold render. simpl. now rewrite Hnone.
Qed.

Lemma blind_session_offered :
  offered_along Sample.blind_session (initialState, Sample.freshWorld).
Proof. simpl. repeat split. Qed.

Lemma no_position_no_selection_witness :
  selectedPosition
    (run Sample.blind_session (initialState, Sample.freshWorld)).1
  = (0, 0)%Q.
Proof.
  apply (no_position_no_selection Sample.blind_session Sample.freshWorld);
    [exact blind_session_offered|reflexivity].
Defined.

Lemma position_alert_no_request (api : Api) (s : State) (w : World)
    (msg : string) :
  alertPosition (handleSubmit api s w).1 = msg -> msg <> "" ->
  (handleSubmit api s w).2 = w.
Proof.
  intros Halert Hmsg. apply handleSubmit_invalid. intros Hvalid.
  rewrite handleSubmit_state, Hvalid in Halert. simpl in Halert. congruence.
Qed.

(** X14. Without a loaded position the form cannot be sent, and does not say
    why: after any session offered by the page in which no position
    arrived, a submit makes no request and records the position message,
    but the page, which renders that message inside the map only, does not
    show it; when the other four fields are in order the page shows no
    error at all. *)
Theorem submit_without_map (evs : list Event) (w0 : World)
    (answer : PostResult) :
  offered_along evs (initialState, w0) ->
  let sw := run evs (initialState, w0) in
  loadPosition sw.1 = None ->
  let r := handle (Submit answer) sw in
  r.2 = sw.2
  /\ alertPosition r.1 = "Informe a localizaçao no mapa"
  /\ ("Informe a localizaçao no mapa" ∉ alert_errors (render r.1))
  /\ (name sw.1 <> "" -> description sw.1 <> "" ->
      String.length (description sw.1) <= 300 ->
      1 <= length (images sw.1) <= 5 -> opening_hours sw.1 <> "" ->
      alert_errors (render r.1) = []).
Proof.
  intros Hevs sw Hnone r.
  pose proof (run_position evs (initialState, w0) (fun _ => eq_refl) Hevs Hnone)
    as Hsel.
  fold sw in Hsel. destruct sw as [s w]. simpl in *. subst r.
  destruct (alerts_after_submit (fun _ _ => answer) s w)
    as (Hn & Hd & Hp & Hi & Ho).
  pose proof (handleSubmit_draft (fun _ _ => answer) s w) as Hdraft.
  unfold draft in Hdraft. injection Hdraft as Hl _ _ _ _ _ _ _.
  unfold payload_of in Hn, Hd, Hp, Hi, Ho. simpl in Hn, Hd, Hp, Hi, Ho.
  rewrite Hsel in Hp. simpl in Hp.
  split; [now apply (position_alert_no_request _ _ _ _ Hp)|].
  split; [exact Hp|].
  unfold render. simpl. rewrite Hl, Hnone, Hn, Hd, Hi, Ho. simpl.
  split.
  - unfold alert_error.
    repeat match goal with
           | |- context [Nat.eqb (String.length (name s)) 0] =>
               destruct (Nat.eqb (String.length (name s)) 0)
           | |- context [Nat.eqb (String.length (description s)) 0] =>
               destruct (Nat.eqb (String.length (description s)) 0)
           | |- context [Nat.leb (String.length (description s)) 300] =>
               destruct (Nat.leb (String.length (description s)) 300)
           | |- context [Nat.eqb (length (images s)) 0] =>
               destruct (Nat.eqb (length (images s)) 0)
           | |- context [Nat.leb (length (images s)) 5] =>
               destruct (Nat.leb (length (images s)) 5)
           | |- context [Nat.eqb (String.length (opening_hours s)) 0] =>
               destruct (Nat.eqb (String.length (opening_hours s)) 0)
           end; by_evaluation.
  - intros Hname Hdesc Hlen Himgs Hoh.
    destruct (Nat.eqb_spec (String.length (name s)) 0) as [E|_];
      [now apply length_zero_empty in E|].
    destruct (Nat.eqb_spec (String.length (description s)) 0) as [E|_];
      [now apply length_zero_empty in E|].
    destruct (Nat.leb_spec (String.length (description s)) 300); [|lia].
    destruct (Nat.eqb_spec (length (images s)) 0); [lia|].
    destruct (Nat.leb_spec (length (images s)) 5); [|lia].
    destruct (Nat.eqb_spec (String.length (opening_hours s)) 0) as [E|_];
      [now apply length_zero_empty in E|].
    reflexivity.
Qed.

Lemma submit_without_map_witness :
  alert_errors
    (render
       (handle (Submit Resolved)
          (run Sample.blind_session (initialState, Sample.freshWorld))).1)
  = []
  /\ posts
       (handle (Submit Resolved)
          (run Sample.blind_session (initialState, Sample.freshWorld))).2
     = [].
Proof.
  destruct (submit_without_map Sample.blind_session Sample.freshWorld
              Resolved blind_session_offered eq_refl)
    as (Hworld & _ & _ & Hquiet).
  split; [|now rewrite Hworld].
  apply Hquiet; simpl; first [discriminate | lia].
Defined.
